(** * Real-estate chat front end: proxy route, message rendering, page controller

    A shallow embedding of the three TypeScript units of the repository:

    - [Proxy]       the route handler [POST] of [/api/chat] (src/unnamed/part_000);
    - [ChatMessage] [isVegaSpec], [formatText] and the bubble chosen by the
                    [ChatMessage] component (src/unnamed/part_001);
    - [Page]        the state of the page component with [sendMessage] and
                    [clearChat] (src/unnamed/part_002).

    JavaScript strings are sequences of UTF-16 code units, JSON payloads are
    values of [JSValue], and the effects of the code (requests issued, console
    output, state updates) are passed explicitly. *)

From Stdlib Require Import List ZArith NArith Bool Lia String Ascii Floats.
From Stdlib Require Import DecimalString.
Import ListNotations.

Set Implicit Arguments.
Set Warnings "-register-all".

(* ================================================================== *)
(** ** JavaScript data *)
(* ================================================================== *)

Module JS.

(** A JavaScript string: its UTF-16 code units. *)
Definition jsstring := list N.

(** An ASCII literal of the source as code units. *)
Definition lit (s : string) : jsstring :=
  map N_of_ascii (list_ascii_of_string s).

Fixpoint str_eqb (a b : jsstring) : bool :=
  match a, b with
  | [], [] => true
  | x :: a', y :: b' => N.eqb x y && str_eqb a' b'
  | _, _ => false
  end.

(** [String.prototype.startsWith] (no position argument). *)
Fixpoint startsWith (p s : jsstring) : bool :=
  match p, s with
  | [], _ => true
  | x :: p', y :: s' => N.eqb x y && startsWith p' s'
  | _ :: _, [] => false
  end.

(** [String.prototype.endsWith] (no position argument). *)
Definition endsWith (p s : jsstring) : bool :=
  startsWith (rev p) (rev s).

(** [s] without the prefix [p], when it has it. *)
Fixpoint strip_prefix (p s : jsstring) : option jsstring :=
  match p, s with
  | [], _ => Some s
  | x :: p', y :: s' => if N.eqb x y then strip_prefix p' s' else None
  | _ :: _, [] => None
  end.

(** [String.prototype.slice(start, end)]: negative arguments count from
    the end, both are clamped to the string, an empty range gives "". *)
Definition slice (start end_ : Z) (s : jsstring) : jsstring :=
  let len := Z.of_nat (List.length s) in
  let from := if (start <? 0)%Z then Z.max (len + start) 0 else Z.min start len in
  let to := if (end_ <? 0)%Z then Z.max (len + end_) 0 else Z.min end_ len in
  firstn (Z.to_nat (to - from)) (skipn (Z.to_nat from) s).

(** [String.prototype.split(sep)] for a separator of one code unit:
    the pieces between the separators, at least one piece. *)
Fixpoint split (sep : N) (s : jsstring) : list jsstring :=
  match s with
  | [] => [[]]
  | c :: s' =>
      if N.eqb c sep then [] :: split sep s'
      else match split sep s' with
           | [] => [[c]]
           | piece :: pieces => (c :: piece) :: pieces
           end
  end.

(** ECMAScript WhiteSpace and LineTerminator code points, the ones
    [String.prototype.trim] removes. *)
Definition is_whitespace (c : N) : bool :=
  existsb (N.eqb c)
    [9; 10; 11; 12; 13; 32; 160; 5760; 8232; 8233; 8239; 8287; 12288; 65279]%N
  || (N.leb 8192 c && N.leb c 8202).

Fixpoint trimStart (s : jsstring) : jsstring :=
  match s with
  | c :: s' => if is_whitespace c then trimStart s' else s
  | [] => []
  end.

Definition trimEnd (s : jsstring) : jsstring := rev (trimStart (rev s)).

(** [String.prototype.trim]. *)
Definition trim (s : jsstring) : jsstring := trimEnd (trimStart s).

(** [String.prototype.toLowerCase] on the Basic Latin letters.  The case
    mappings outside Basic Latin are left out: none of them produces one of
    the letters e, r, o, the only ones the source compares the result with. *)
Definition lower_unit (c : N) : N :=
  if (N.leb 65 c && N.leb c 90)%bool then (c + 32)%N else c.

Definition toLowerCase (s : jsstring) : jsstring := map lower_unit s.

(** A template-literal substitution of an integer-valued number:
    its decimal digits. *)
Definition int_to_string (z : Z) : jsstring :=
  lit (NilZero.string_of_int (Z.to_int z)).

(** A value as [JSON.parse] produces it.  Numbers are IEEE 754 doubles;
    [props] lists every own property of an object once, in the order the
    object enumerates them. *)
Inductive Json : Type :=
| JNull
| JBool (b : bool)
| JNumber (x : float)
| JString (s : jsstring)
| JArray (items : list Json)
| JObject (props : list (jsstring * Json)).

(** The values the source handles: parsed JSON, or [undefined] (a missing
    property). *)
Inductive JSValue : Type :=
| Undefined
| Value (j : Json).

Inductive TypeTag :=
| TUndefined | TObject | TBoolean | TNumber | TString.

(** The [typeof] operator ([null] and arrays are "object"). *)
Definition typeof (v : JSValue) : TypeTag :=
  match v with
  | Undefined => TUndefined
  | Value JNull => TObject
  | Value (JBool _) => TBoolean
  | Value (JNumber _) => TNumber
  | Value (JString _) => TString
  | Value (JArray _) => TObject
  | Value (JObject _) => TObject
  end.

Definition is_object_tag (t : TypeTag) : bool :=
  match t with TObject => true | _ => false end.

Definition is_string_tag (t : TypeTag) : bool :=
  match t with TString => true | _ => false end.

Definition is_null (v : JSValue) : bool :=
  match v with Value JNull => true | _ => false end.

(** The own property [k] among [props]. *)
Fixpoint lookup (k : jsstring) (props : list (jsstring * Json)) : option Json :=
  match props with
  | [] => None
  | (k', v) :: rest => if str_eqb k k' then Some v else lookup k rest
  end.

(** [k in v] for a key [k] that neither [Object.prototype] nor
    [Array.prototype] defines and that is no array index (this holds of
    "mark" and "$schema"): only an own property of a plain object counts.
    The source guards every use with [typeof v === "object"] and
    [v !== null], so the operator is never applied to a primitive. *)
Definition has_key (k : jsstring) (v : JSValue) : bool :=
  match v with
  | Value (JObject props) =>
      match lookup k props with Some _ => true | None => false end
  | _ => false
  end.

(** What a [throw] carries, as far as the source inspects it:
    [err instanceof Error], [err.name], [err.message]. *)
Record Thrown := {
  instanceofError : bool;
  name : jsstring;
  message : jsstring
}.

(** [new Error(msg)]. *)
Definition new_Error (msg : jsstring) : Thrown :=
  {| instanceofError := true; name := lit "Error"; message := msg |}.

Definition new_TypeError (msg : jsstring) : Thrown :=
  {| instanceofError := true; name := lit "TypeError"; message := msg |}.

Definition new_RangeError (msg : jsstring) : Thrown :=
  {| instanceofError := true; name := lit "RangeError"; message := msg |}.

(** How a call or an awaited promise completes: it throws (the promise
    rejects) or it returns (the promise resolves). *)
Inductive Completion (A : Type) : Type :=
| Throw (err : Thrown)
| Normal (value : A).
Arguments Throw {A} err.
Arguments Normal {A} value.

Definition bind {A B : Type} (c : Completion A) (k : A -> Completion B) : Completion B :=
  match c with
  | Throw err => Throw err
  | Normal a => k a
  end.

Notation "x <- c ;; k" := (bind c (fun x => k))
  (at level 61, c at next level, right associativity).

(** An induction principle that reaches the items of an array and the
    values of an object. *)
Section JsonInduction.

Variable P : Json -> Prop.
Hypothesis P_null : P JNull.
Hypothesis P_bool : forall b, P (JBool b).
Hypothesis P_number : forall x, P (JNumber x).
Hypothesis P_string : forall s, P (JString s).
Hypothesis P_array : forall items, Forall P items -> P (JArray items).
Hypothesis P_object :
  forall props, Forall (fun kv => P (snd kv)) props -> P (JObject props).

Fixpoint Json_induction (v : Json) : P v :=
  match v with
  | JNull => P_null
  | JBool b => P_bool b
  | JNumber x => P_number x
  | JString s => P_string s
  | JArray items =>
      P_array
        ((fix all (l : list Json) : Forall P l :=
            match l with
            | [] => Forall_nil P
            | x :: rest => Forall_cons x (Json_induction x) (all rest)
            end) items)
  | JObject props =>
      P_object
        ((fix all (l : list (jsstring * Json)) : Forall (fun kv => P (snd kv)) l :=
            match l with
            | [] => Forall_nil _
            | kv :: rest =>
                Forall_cons kv
                  (match kv as p return P (snd p) with
                   | (k, x) => Json_induction x
                   end)
                  (all rest)
            end) props)
  end.

End JsonInduction.

(** What [JSON.stringify] makes of a number, read back: a number that is
    not finite is written as [null], negative zero is written as "0", and
    every other number is written with digits that read back as the same
    number. *)
Definition serialised_number (x : float) : Json :=
  if PrimFloat.is_nan x || PrimFloat.is_infinity x then JNull
  else if PrimFloat.is_zero x && PrimFloat.get_sign x then JNumber PrimFloat.zero
  else JNumber x.

(** [JSON.parse(JSON.stringify(v))]: the value a parsed value has once it
    has been written out and read again.  Strings, booleans, [null] and the
    shape of arrays and objects come back as they were; numbers as
    [serialised_number] has them. *)
Fixpoint serialised (v : Json) : Json :=
  match v with
  | JNumber x => serialised_number x
  | JArray items => JArray (map serialised items)
  | JObject props =>
      JObject (map (fun kv => match kv with (k, x) => (k, serialised x) end) props)
  | other => other
  end.

(** A number that [JSON.stringify] writes without loss. *)
Definition survives_number (x : float) : bool :=
  negb (PrimFloat.is_nan x || PrimFloat.is_infinity x)
  && negb (PrimFloat.is_zero x && PrimFloat.get_sign x).

(** A value all of whose numbers are written without loss. *)
Fixpoint survives (v : Json) : bool :=
  match v with
  | JNumber x => survives_number x
  | JArray items => forallb survives items
  | JObject props => forallb (fun kv => match kv with (k, x) => survives x end) props
  | _ => true
  end.

(** A text that [JSON.stringify] produced.  [JSON.stringify] writes no
    white space and one spelling for each number and string, so two such
    texts are equal exactly when they read back as the same value: the text
    is kept as the value it reads back as. *)
Inductive JsonText : Type :=
| Text (reads_as : Json).

(** [JSON.stringify(v)] for a parsed value [v]. *)
Definition JSON_stringify (v : Json) : JsonText := Text (serialised v).

(** [JSON.parse] of such a text. *)
Definition JSON_parse (text : JsonText) : Json :=
  match text with Text v => v end.

(** A response as [fetch] hands it over: the status line and how
    [response.json()] completes. *)
Record Response := {
  status : Z;
  json : Completion Json
}.

(** An [AbortController]; its signal is aborted once [abort()] is called. *)
Record AbortController := {
  aborted : bool
}.

(** The arguments of a [fetch] call; [signal] is the controller whose
    signal was passed, if one was. *)
Record FetchCall := {
  url : jsstring;
  method : jsstring;
  headers : list (jsstring * jsstring);
  body : JsonText;
  signal : option AbortController
}.

(** [response.ok]: the status is in the range 200 to 299. *)
Definition ok (r : Response) : bool :=
  (200 <=? status r)%Z && (status r <=? 299)%Z.

End JS.

(* ================================================================== *)
(** ** The proxy route: [POST /api/chat] *)
(* ================================================================== *)

Module Proxy.
Import JS.

Definition AGENT_URL : jsstring := lit "http://127.0.0.1:8001/chat".

(** A response built by [NextResponse.json]: its status and the value its
    body reads as (what [response.json()] gives the caller). *)
Record Reply := {
  reply_status : Z;
  reply_body : Json
}.

(** The statuses a response with a body cannot have. *)
Definition null_body_status (s : Z) : bool :=
  existsb (Z.eqb s) [101; 103; 204; 205; 304]%Z.

(** [NextResponse.json(data, { status })].  The platform's [Response]
    constructor refuses a status outside 200..599 with a [RangeError] and a
    body on a null-body status with a [TypeError] (the messages are those of
    Node's implementation; 34 is the double quote).  The body is
    [JSON.stringify(data)], so what it reads as is [serialised data]. *)
Definition NextResponse_json (data : Json) (init_status : Z) : Completion Reply :=
  if ((init_status <? 200) || (599 <? init_status))%Z then
    Throw (new_RangeError
             (lit "init[" ++ [34%N] ++ lit "status" ++ [34%N]
              ++ lit "] must be in the range of 200 to 599, inclusive."))
  else if null_body_status init_status then
    Throw (new_TypeError
             (lit "Response constructor: Invalid response status code "
              ++ int_to_string init_status))
  else Normal {| reply_status := init_status; reply_body := serialised data |}.

(** What one run of the handler leaves behind: its response, the [fetch]
    calls it made and the lines it wrote with [console.error]. *)
Record Run := {
  reply : Reply;
  fetched : list FetchCall;
  console : list (list jsstring)
}.

(** The [fetch] call of the handler for a parsed request body. *)
Definition forward (body : Json) : FetchCall :=
  {| url := AGENT_URL;
     method := lit "POST";
     headers := [(lit "Content-Type", lit "application/json")];
     body := JSON_stringify body;
     signal := None |}.

(** The statements after [fetch] has resolved (lines 15-23). *)
Definition relay (response : Response) : Completion Reply :=
  if negb (ok response) then
    NextResponse_json
      (JObject [(lit "error",
                 JString (lit "Agent returned " ++ int_to_string (status response)))])
      (status response)
  else
    data <- json response ;;
    NextResponse_json data 200.

(** The [try] block: how it completes and the [fetch] calls made on the
    way.  [req_json] is how [req.json()] completes, [agent] how the
    upstream endpoint answers a call. *)
Definition try_block (req_json : Completion Json)
    (agent : FetchCall -> Completion Response) : Completion Reply * list FetchCall :=
  match req_json with
  | Throw err => (Throw err, [])
  | Normal body =>
      (response <- agent (forward body) ;; relay response, [forward body])
  end.

Definition fallback : Reply :=
  {| reply_status := 502;
     reply_body :=
       JObject [(lit "response",
                 JString (lit "Cannot reach the agent backend. Make sure chatbot_agent.py is running on port 8001."))] |}.

(** The [catch] block (lines 25-35). *)
Definition catch_block (err : Thrown) (calls : list FetchCall) : Run :=
  let message := if instanceofError err then JS.message err else lit "Unknown error" in
  {| reply := fallback;
     fetched := calls;
     console := [[lit "[/api/chat proxy error]"; message]] |}.

(** The upstream endpoint gave no usable answer to a call: [fetch]
    rejected (connection refused, time-out, a malformed HTTP response), or
    the response has a success status and a body that [response.json()]
    cannot read.  A response with any other status is answered by its
    status alone. *)
Definition unreachable (answer : Completion Response) : bool :=
  match answer with
  | Throw _ => true
  | Normal response =>
      ok response
      && match json response with
         | Throw _ => true
         | Normal _ => false
         end
  end.

Definition POST (req_json : Completion Json)
    (agent : FetchCall -> Completion Response) : Run :=
  match try_block req_json agent with
  | (Normal r, calls) => {| reply := r; fetched := calls; console := [] |}
  | (Throw err, calls) => catch_block err calls
  end.

End Proxy.

(* ================================================================== *)
(** ** The message component *)
(* ================================================================== *)

Module ChatMessage.
Import JS.

Inductive MessageRole := user | agent.

(** [timestamp] is a [Date], kept as its time value in milliseconds. *)
Record Message := {
  id : jsstring;
  role : MessageRole;
  content : JSValue;
  timestamp : Z
}.

Definition isVegaSpec (content : JSValue) : bool :=
  is_object_tag (typeof content)
  && negb (is_null content)
  && (has_key (lit "mark") content || has_key (lit "$schema") content).

Definition asterisk : N := 42.
Definition line_feed : N := 10.
Definition marker : jsstring := [asterisk; asterisk].

(** The pattern of [formatText] is: a marker (two asterisks), one or more
    code units other than an asterisk, a marker; the whole of it is one
    capture group.

    [run_then_close] matches the part after the opening marker at the head
    of [s]: the run consumed and what follows the closing marker.  The
    quantifier is greedy: a longer run is tried before the run is closed. *)
Fixpoint run_then_close (s : jsstring) : option (jsstring * jsstring) :=
  match s with
  | [] => None
  | c :: s' =>
      if N.eqb c asterisk then None
      else match run_then_close s' with
           | Some (run, rest) => Some (c :: run, rest)
           | None =>
               match strip_prefix marker s' with
               | Some rest => Some ([c], rest)
               | None => None
               end
           end
  end.

(** A match of the pattern at the head of [s]: the matched text and the
    rest of [s]. *)
Definition match_bold (s : jsstring) : option (jsstring * jsstring) :=
  match strip_prefix marker s with
  | None => None
  | Some s1 =>
      match run_then_close s1 with
      | None => None
      | Some (run, rest) => Some (marker ++ run ++ marker, rest)
      end
  end.

(** [line.split(pattern)] from a position on.  [pending] holds,
    reversed, the code units passed since the last match, [s] is the text
    from the current position.  Where the pattern matches, the text passed
    and the captured group are emitted and the scan resumes after the
    match; elsewhere the scan moves on by one code unit.  Each step
    consumes at least one code unit of [s], which [fuel] bounds. *)
Fixpoint split_bold_from (fuel : nat) (pending s : jsstring) : list jsstring :=
  match fuel with
  | O => [rev pending ++ s]
  | S fuel' =>
      match s with
      | [] => [rev pending]
      | c :: s' =>
          match match_bold s with
          | Some (captured, rest) =>
              rev pending :: captured :: split_bold_from fuel' [] rest
          | None => split_bold_from fuel' (c :: pending) s'
          end
      end
  end.

Definition split_bold (line : jsstring) : list jsstring :=
  split_bold_from (List.length line) [] line.

(** The React nodes [formatText] builds. *)
Inductive Inline :=
| Plain (text : jsstring)
| Strong (text : jsstring).

(** A [<span>] of one line: its parts and whether a [<br />] closes it. *)
Record LineSpan := {
  parts : list Inline;
  br : bool
}.

Definition format_part (part : jsstring) : Inline :=
  if startsWith marker part && endsWith marker part
  then Strong (slice 2 (-2) part)
  else Plain part.

(** [xs.map((x, i) => f i x)], counting from [i]. *)
Fixpoint mapi_from {A B : Type} (i : nat) (f : nat -> A -> B) (xs : list A) : list B :=
  match xs with
  | [] => []
  | x :: xs' => f i x :: mapi_from (S i) f xs'
  end.

Definition formatText (text : jsstring) : list LineSpan :=
  mapi_from 0
    (fun i line =>
       {| parts := map format_part (split_bold line);
          br := (Z.of_nat i <? Z.of_nat (List.length (split line_feed text)) - 1)%Z |})
    (split line_feed text).

(** What fills the bubble of an agent message that is no chart. *)
Inductive AgentBody :=
| Formatted (spans : list LineSpan)
| Serialized (content : JSValue).

(** The bubble the component returns (avatar and time stamp left out):
    the user bubble with its text, the chart ([<VegaChart spec=... />]), or
    the agent bubble, error-styled or not. *)
Inductive Bubble :=
| UserBubble (text : jsstring)
| ChartBubble (spec : JSValue)
| AgentBubble (isError : bool) (children : AgentBody).

Definition ChatMessage (message : Message) : Bubble :=
  let isUser := match role message with user => true | agent => false end in
  let isChart := negb isUser && isVegaSpec (content message) in
  let isError :=
    negb isUser
    && match content message with
       | Value (JString s) => startsWith (lit "error") (toLowerCase s)
       | _ => false
       end in
  if isUser then
    UserBubble match content message with
               | Value (JString s) => s
               | _ => []
               end
  else if isChart then ChartBubble (content message)
  else
    AgentBubble isError
      match content message with
      | Value (JString s) => Formatted (formatText s)
      | other => Serialized other
      end.

End ChatMessage.

(* ================================================================== *)
(** ** The page component *)
(* ================================================================== *)

Module Page.
Import JS ChatMessage.

Definition AGENT_URL : jsstring := lit "http://127.0.0.1:8001/chat".

(** The state of the component: its four [useState] cells and [abortRef]. *)
Record PageState := {
  messages : list Message;
  input : jsstring;
  isLoading : bool;
  showWelcome : bool;
  abortRef : option AbortController
}.

(** What the environment hands to one run of [sendMessage]:
    the result of [crypto.randomUUID()] and of [new Date()]. *)
Record Fresh := {
  uuid : jsstring;
  now : Z
}.

Definition append (m : Message) (st : PageState) : PageState :=
  {| messages := messages st ++ [m];
     input := input st;
     isLoading := isLoading st;
     showWelcome := showWelcome st;
     abortRef := abortRef st |}.

Definition setIsLoading (b : bool) (st : PageState) : PageState :=
  {| messages := messages st;
     input := input st;
     isLoading := b;
     showWelcome := showWelcome st;
     abortRef := abortRef st |}.

(** [handleInputChange], as far as the state goes. *)
Definition handleInputChange (value : jsstring) (st : PageState) : PageState :=
  {| messages := messages st;
     input := value;
     isLoading := isLoading st;
     showWelcome := showWelcome st;
     abortRef := abortRef st |}.

(** The [fetch] call of [sendMessage] (lines 58-63). *)
Definition chat_request (trimmed : jsstring) (controller : AbortController) : FetchCall :=
  {| url := AGENT_URL;
     method := lit "POST";
     headers := [(lit "Content-Type", lit "application/json")];
     body := JSON_stringify (JObject [(lit "message", JString trimmed)]);
     signal := Some controller |}.

(** [sendMessage] up to its first [await] (lines 39-63): the state it
    leaves and the [fetch] call it makes, if any.  [isLoading] is the value
    of the render the callback belongs to; the height of the text area is
    presentation and left out. *)
Definition sendMessage (text : jsstring) (fresh : Fresh) (st : PageState)
    : PageState * option FetchCall :=
  let trimmed := trim text in
  if str_eqb trimmed [] || isLoading st then (st, None)
  else
    let userMsg :=
      {| id := uuid fresh;
         role := user;
         content := Value (JString trimmed);
         timestamp := now fresh |} in
    let controller := {| aborted := false |} in
    ({| messages := messages st ++ [userMsg];
        input := [];
        isLoading := true;
        showWelcome := false;
        abortRef := Some controller |},
     Some (chat_request trimmed controller)).

(** [data.response]: reading a property of [null] throws, a value
    without the property gives [undefined]. *)
Definition get_response (data : Json) : Completion JSValue :=
  match data with
  | JNull =>
      Throw (new_TypeError (lit "Cannot read properties of null (reading 'response')"))
  | JObject props =>
      match lookup (lit "response") props with
      | Some v => Normal (Value v)
      | None => Normal Undefined
      end
  | _ => Normal Undefined
  end.

(** The rest of the [try] block once [fetch] has settled (lines 65-68):
    the value of [raw], or what is thrown. *)
Definition read_reply (fetched : Completion Response) : Completion JSValue :=
  res <- fetched ;;
  if negb (ok res) then
    Throw (new_Error (lit "Server error: " ++ int_to_string (status res)))
  else
    data <- json res ;;
    get_response data.

Definition error_text : jsstring :=
  lit "Error: Could not reach the agent. Make sure chatbot_agent.py is running on port 8001.".

(** The [DOMException] an aborted [fetch] or body read rejects with. *)
Definition AbortError (msg : jsstring) : Thrown :=
  {| instanceofError := true; name := lit "AbortError"; message := msg |}.

(** The request ended by cancellation: the awaited [fetch], or the
    awaited [res.json()] of a response that passed the status check,
    rejected with an [AbortError]. *)
Inductive cancelled : Completion Response -> Prop :=
| cancelled_fetch (msg : jsstring) :
    cancelled (Throw (AbortError msg))
| cancelled_body (code : Z) (msg : jsstring) :
    (200 <= code <= 299)%Z ->
    cancelled (Normal {| status := code; json := Throw (AbortError msg) |}).

(** [sendMessage] from the point where [fetch] settles (lines 65-89):
    [fetched] is how the awaited [fetch] completes, [fresh] supplies the
    identifier and time of the message built. *)
Definition sendMessage_settled (fetched : Completion Response) (fresh : Fresh)
    (st : PageState) : PageState :=
  let after :=
    match read_reply fetched with
    | Normal raw =>
        append {| id := uuid fresh;
                  role := agent;
                  content := raw;
                  timestamp := now fresh |} st
    | Throw err =>
        if instanceofError err && str_eqb (name err) (lit "AbortError") then st
        else
          append {| id := uuid fresh;
                    role := agent;
                    content := Value (JString error_text);
                    timestamp := now fresh |} st
    end in
  setIsLoading false after.

Section Component.

(** The time at which the module was evaluated ([new Date()] of
    [WELCOME]). *)
Variable loaded_at : Z.

Definition WELCOME : Message :=
  {| id := lit "welcome";
     role := agent;
     content :=
       Value (JString
         (lit "Hi! I'm your **AI Real Estate Analyst**. I can help you explore the California Housing dataset "
          ++ [8212%N]
          ++ lit " find specific properties, compare prices, or generate charts."
          ++ [line_feed; line_feed]
          ++ lit "Try one of the suggestions below, or ask me anything!"));
     timestamp := loaded_at |}.

(** The state of the first render. *)
Definition initial : PageState :=
  {| messages := [WELCOME];
     input := [];
     isLoading := false;
     showWelcome := true;
     abortRef := None |}.

Definition clearChat (st : PageState) : PageState :=
  {| messages := [WELCOME];
     input := input st;
     isLoading := isLoading st;
     showWelcome := true;
     abortRef := abortRef st |}.

(** The page as React holds it: the current state, the state the last
    render saw (it is what is on screen, and what the handlers and the
    [sendMessage] callback of that render captured), and the requests
    issued that have not settled yet, oldest first. *)
Record Session := {
  page : PageState;
  rendered : PageState;
  outstanding : list FetchCall
}.

Inductive Event :=
| Typed (value : jsstring)
| Send (text : jsstring) (fresh : Fresh)
| Settled (fetched : Completion Response) (fresh : Fresh)
| Cleared
| SettledLater (n : nat) (fetched : Completion Response) (fresh : Fresh)
| Rendered.

(** The state a run of the [sendMessage] callback on screen starts from:
    its guard reads [isLoading] as the render it belongs to saw it
    ([useCallback] with the dependency [isLoading]), while its updates
    ([setMessages] with a function of the previous list, [setInput],
    [setIsLoading], [setShowWelcome]) go to the current state. *)
Definition as_captured (s : Session) : PageState :=
  setIsLoading (isLoading (rendered s)) (page s).

(** The outstanding requests without the one at position [n]. *)
Definition without (n : nat) (calls : list FetchCall) : list FetchCall :=
  firstn n calls ++ skipn (S n) calls.

(** The request at position [n] settles and the run of [sendMessage]
    that awaited it resumes; its updates go to the current state. *)
Definition settle (n : nat) (fetched : Completion Response) (fresh : Fresh)
    (s : Session) : Session :=
  match nth_error (outstanding s) n with
  | None => s
  | Some _ =>
      {| page := sendMessage_settled fetched fresh (page s);
         rendered := rendered s;
         outstanding := without n (outstanding s) |}
  end.

(** One turn of the event loop.  [Send] stands for every caller of
    [sendMessage] (the Enter key and the button with the current input,
    a suggested query with its text); [Settled] resumes the run of
    [sendMessage] whose request is the oldest outstanding one,
    [SettledLater n] the one [n] places after it; [Rendered] is React
    rendering the component again, which it does at some point after an
    update. *)
Definition step (e : Event) (s : Session) : Session :=
  match e with
  | Typed value =>
      {| page := handleInputChange value (page s);
         rendered := rendered s;
         outstanding := outstanding s |}
  | Send text fresh =>
      match sendMessage text fresh (as_captured s) with
      | (st, Some call) =>
          {| page := st;
             rendered := rendered s;
             outstanding := outstanding s ++ [call] |}
      | (_, None) => s
      end
  | Settled fetched fresh => settle 0 fetched fresh s
  | Cleared =>
      {| page := clearChat (page s);
         rendered := rendered s;
         outstanding := outstanding s |}
  | SettledLater n fetched fresh => settle (S n) fetched fresh s
  | Rendered =>
      {| page := page s;
         rendered := page s;
         outstanding := outstanding s |}
  end.

Definition start : Session :=
  {| page := initial; rendered := initial; outstanding := [] |}.

(** Single flight: the page is in the loading state exactly while one
    request is outstanding, and there is never a second one. *)
Definition single_flight (s : Session) : Prop :=
  match outstanding s with
  | [] => isLoading (page s) = false
  | [_] => isLoading (page s) = true
  | _ :: _ :: _ => False
  end.

(** The session after the events [es], in order. *)
Definition run (es : list Event) : Session :=
  fold_left (fun s e => step e s) es start.

(** The events [es] with a render before each of them: what happens when
    React has rendered again before the next event is handled. *)
Definition rendered_between (es : list Event) : list Event :=
  flat_map (fun e => [Rendered; e]) es.

End Component.

End Page.

(* ================================================================== *)
(** ** What the page renders, and its handlers *)
(* ================================================================== *)

Module PageView.
Import JS ChatMessage Page.

(** The [disabled] attribute of the send button (line 258). *)
Definition send_disabled (st : PageState) : bool :=
  str_eqb (trim (input st)) [] || isLoading st.

(** [handleKeyDown] (lines 92-97): Enter without Shift sends the input,
    any other key is left to the text area. *)
Definition handleKeyDown (key : jsstring) (shiftKey : bool) (fresh : Fresh)
    (st : PageState) : PageState * option FetchCall :=
  if str_eqb key (lit "Enter") && negb shiftKey
  then sendMessage (input st) fresh st
  else (st, None).

(** The welcome block is rendered (line 199). *)
Definition shows_hero (st : PageState) : bool := showWelcome st.

(** The typing indicator is rendered (line 224). *)
Definition shows_typing (st : PageState) : bool := isLoading st.

(** The suggested queries are rendered (line 227). *)
Definition shows_suggestions (st : PageState) : bool :=
  showWelcome st && negb (isLoading st).

(** The bubbles of the message list (lines 219-221). *)
Definition message_list (st : PageState) : list Bubble :=
  map ChatMessage (messages st).

(** The identifiers an event brings in: the [crypto.randomUUID()] of the
    run of [sendMessage] it starts or resumes. *)
Definition uuid_of (e : Event) : list jsstring :=
  match e with
  | Send _ fresh => [uuid fresh]
  | Settled _ fresh => [uuid fresh]
  | SettledLater _ _ fresh => [uuid fresh]
  | Typed _ => []
  | Cleared => []
  | Rendered => []
  end.

Definition uuids (es : list Event) : list jsstring := flat_map uuid_of es.

(** The check of the [catch] block of [sendMessage] (line 79). *)
Definition is_AbortError (err : Thrown) : bool :=
  instanceofError err && str_eqb (name err) (lit "AbortError").

(** The message [sendMessage] appends on a failure (lines 80-86). *)
Definition errorMsg (fresh : Fresh) : Message :=
  {| id := uuid fresh;
     role := agent;
     content := Value (JString error_text);
     timestamp := now fresh |}.

End PageView.

(* ================================================================== *)
(** ** The suggested queries *)
(* ================================================================== *)

Module SuggestedQueries.
Import JS.

(** The [text] fields of [SUGGESTIONS]; a click on a suggestion calls
    [onSelect] with its text, and the page passes [sendMessage] as
    [onSelect]. *)
Definition SUGGESTIONS : list jsstring :=
  [ lit "Show the 5 most expensive houses";
    lit "Find the cheapest houses near the ocean";
    lit "Plot average price by ocean proximity";
    lit "Find houses under $200,000 and plot their age distribution";
    lit "Show total houses by ocean proximity as a pie chart";
    lit "Find the largest houses by total rooms" ].

End SuggestedQueries.

(* ================================================================== *)
(** ** Reading the formatted text back *)
(* ================================================================== *)

Module Markup.
Import JS ChatMessage.

(** [pieces.join(sep)] for a separator of one code unit. *)
Fixpoint join (sep : N) (pieces : list jsstring) : jsstring :=
  match pieces with
  | [] => []
  | [piece] => piece
  | piece :: rest => piece ++ sep :: join sep rest
  end.

(** The piece of text a rendered part stands for: plain text is itself,
    an emphasized span is its text between two markers. *)
Definition source_of (part : Inline) : jsstring :=
  match part with
  | Plain text => text
  | Strong text => marker ++ text ++ marker
  end.

End Markup.

(* ================================================================== *)
(** ** The chart component *)
(* ================================================================== *)

Module VegaChart.
Import JS.

(** A view as [vegaEmbed] returns it, named by a number. *)
Definition View := nat.

(** One run of the effect of [VegaChart] (lines 12-42) that found its
    container: the variable [cleanup] (the view it will finalize, once
    set), the views finalized so far, what the [catch] block wrote into the
    container and to the console, whether [renderChart] has settled and
    whether React has run the function the effect returned. *)
Record Effect := {
  cleanup : option View;
  finalized : list View;
  innerHTML : option jsstring;
  console : list (list jsstring);
  settled : bool;
  torn_down : bool
}.

(** What happens to a run: the awaited [vegaEmbed] resolves with a view;
    the import or the embed rejects ([err] is the text of the error as the
    template literal prints it, [mounted] whether the container is still
    there); React runs the returned function (the spec changed or the
    component went away). *)
Inductive ChartEvent :=
| Embedded (result : View)
| Failed (err : jsstring) (mounted : bool)
| Teardown.

(** The state after line 40: [renderChart] is under way. *)
Definition started : Effect :=
  {| cleanup := None;
     finalized := [];
     innerHTML := None;
     console := [];
     settled := false;
     torn_down := false |}.

(** One event.  A promise settles once and React runs the function an
    effect returned once: later events of the same kind change nothing. *)
Definition step (e : ChartEvent) (s : Effect) : Effect :=
  match e with
  | Embedded result =>
      if settled s then s
      else {| cleanup := Some result;
              finalized := finalized s;
              innerHTML := innerHTML s;
              console := console s;
              settled := true;
              torn_down := torn_down s |}
  | Failed err mounted =>
      if settled s then s
      else {| cleanup := cleanup s;
              finalized := finalized s;
              innerHTML :=
                if mounted
                then Some (lit "<p class=" ++ [34%N] ++ lit "text-red-500 text-sm p-3"
                           ++ [34%N] ++ lit ">Chart render failed: "
                           ++ err ++ lit "</p>")
                else innerHTML s;
              console := console s ++ [[lit "Vega render error:"; err]];
              settled := true;
              torn_down := torn_down s |}
  | Teardown =>
      if torn_down s then s
      else {| cleanup := cleanup s;
              finalized :=
                finalized s
                ++ match cleanup s with
                   | Some result => [result]
                   | None => []
                   end;
              innerHTML := innerHTML s;
              console := console s;
              settled := settled s;
              torn_down := true |}
  end.

(** The run after the events [es], in order, from the state [s]. *)
Definition after (es : list ChartEvent) (s : Effect) : Effect :=
  fold_left (fun s e => step e s) es s.

Definition run (es : list ChartEvent) : Effect := after es started.

Definition is_teardown (e : ChartEvent) : bool :=
  match e with Teardown => true | _ => false end.

End VegaChart.

(* ================================================================== *)
(** ** Properties of the proxy route *)
(* ================================================================== *)

Module ProxyFacts.
Import JS Proxy.

Lemma not_ok_from_400 (response : Response) :
  (400 <= status response)%Z -> ok response = false.
Proof.
  intros H. unfold ok.
  destruct (Z.leb_spec (status response) 299) as [Hle | Hgt]; [lia |].
  now rewrite andb_false_r.
Qed.

Lemma NextResponse_json_error_status (data : Json) (code : Z) :
  (400 <= code <= 599)%Z ->
  NextResponse_json data code
  = Normal {| reply_status := code; reply_body := serialised data |}.
Proof.
  intros [Hlo Hhi]. unfold NextResponse_json, null_body_status.
  replace (code <? 200)%Z with false by (symmetry; apply Z.ltb_ge; lia).
  replace (599 <? code)%Z with false by (symmetry; apply Z.ltb_ge; lia).
  cbn [orb existsb].
  repeat match goal with
         | |- context [Z.eqb code ?k] =>
             replace (Z.eqb code k) with false by (symmetry; apply Z.eqb_neq; lia)
         end.
  reflexivity.
Qed.

(** A value whose numbers are all written without loss reads back as
    itself. *)
Lemma serialised_survives (v : Json) : survives v = true -> serialised v = v.
Proof.
  induction v as [| b | x | str | items IH | props IH] using Json_induction;
    cbn [survives serialised]; trivial.
  - unfold survives_number, serialised_number. intros H.
    apply andb_prop in H as [Hfinite Hzero].
    apply negb_true_iff in Hfinite, Hzero. now rewrite Hfinite, Hzero.
  - intros H. f_equal. induction IH as [| item items Hitem _ IHitems]; [reflexivity |].
    cbn [forallb map] in *. apply andb_prop in H as [H1 H2].
    now rewrite Hitem, IHitems.
  - intros H. f_equal. induction IH as [| [k x] props Hx _ IHprops]; [reflexivity |].
    cbn [forallb map snd] in *. apply andb_prop in H as [H1 H2].
    now rewrite Hx, IHprops.
Qed.

(** The numbers [JSON.stringify] does not write as they are. *)
Remark serialised_numbers :
  serialised (JNumber PrimFloat.infinity) = JNull
  /\ serialised (JNumber PrimFloat.neg_infinity) = JNull
  /\ serialised (JNumber PrimFloat.nan) = JNull
  /\ serialised (JNumber PrimFloat.neg_zero) = JNumber PrimFloat.zero
  /\ serialised (JNumber 1.5%float) = JNumber 1.5%float
  /\ serialised (JNumber PrimFloat.zero) = JNumber PrimFloat.zero.
Proof. repeat split. Qed.

(** C6, as the code has it.  A parsed request body is written out again
    with [JSON.stringify] for the one POST to the agent's address, and when
    the agent answers with a 2xx status and a JSON body, the handler answers
    with status 200 and that body written out again.  What is written reads
    back as the value itself when all its numbers are finite and none is
    negative zero; otherwise as [serialised] has it. *)
Theorem POST_relays_success
    (body : Json) (agent : FetchCall -> Completion Response)
    (response : Response) (data : Json) :
  agent (forward body) = Normal response ->
  ok response = true ->
  json response = Normal data ->
  POST (Normal body) agent =
    {| reply := {| reply_status := 200; reply_body := serialised data |};
       fetched :=
         [{| url := lit "http://127.0.0.1:8001/chat";
             method := lit "POST";
             headers := [(lit "Content-Type", lit "application/json")];
             body := JSON_stringify body;
             signal := None |}];
       console := [] |}
  /\ JSON_parse (JSON_stringify body) = serialised body
  /\ (survives body = true -> JSON_parse (JSON_stringify body) = body)
  /\ (survives data = true ->
      reply_body (reply (POST (Normal body) agent)) = data).
Proof.
  intros Hanswer Hok Hjson.
  assert (Hrun : POST (Normal body) agent =
    {| reply := {| reply_status := 200; reply_body := serialised data |};
       fetched := [forward body];
       console := [] |}).
  { unfold POST, try_block. rewrite Hanswer. cbn [bind].
    unfold relay. rewrite Hok, Hjson. reflexivity. }
  split; [exact Hrun |]. split; [reflexivity |]. split.
  - intros Hbody. cbn [JSON_parse JSON_stringify]. now apply serialised_survives.
  - intros Hdata. rewrite Hrun. cbn [reply reply_body].
    now apply serialised_survives.
Qed.

Lemma POST_relays_success_witness :
  POST (Normal (JObject [(lit "message", JString (lit "median price?"))]))
       (fun _ => Normal {| status := 200;
                           json := Normal (JObject [(lit "response", JString (lit "**$500k**"))]) |})
  = {| reply := {| reply_status := 200;
                   reply_body :=
                     serialised (JObject [(lit "response", JString (lit "**$500k**"))]) |};
       fetched :=
         [{| url := lit "http://127.0.0.1:8001/chat";
             method := lit "POST";
             headers := [(lit "Content-Type", lit "application/json")];
             body := JSON_stringify (JObject [(lit "message", JString (lit "median price?"))]);
             signal := None |}];
       console := [] |}
  /\ JSON_parse (JSON_stringify (JObject [(lit "message", JString (lit "median price?"))]))
     = serialised (JObject [(lit "message", JString (lit "median price?"))])
  /\ (survives (JObject [(lit "message", JString (lit "median price?"))]) = true ->
      JSON_parse (JSON_stringify (JObject [(lit "message", JString (lit "median price?"))]))
      = JObject [(lit "message", JString (lit "median price?"))])
  /\ (survives (JObject [(lit "response", JString (lit "**$500k**"))]) = true ->
      reply_body
        (reply
           (POST (Normal (JObject [(lit "message", JString (lit "median price?"))]))
                 (fun _ => Normal {| status := 200;
                                     json := Normal (JObject [(lit "response",
                                                               JString (lit "**$500k**"))]) |})))
      = JObject [(lit "response", JString (lit "**$500k**"))]).
Proof.
  apply (@POST_relays_success
           (JObject [(lit "message", JString (lit "median price?"))])
           (fun _ => Normal {| status := 200;
                               json := Normal (JObject [(lit "response", JString (lit "**$500k**"))]) |})
           {| status := 200;
              json := Normal (JObject [(lit "response", JString (lit "**$500k**"))]) |}
           (JObject [(lit "response", JString (lit "**$500k**"))]));
    reflexivity.
Defined.

(** A number too large for a double is valid JSON and parses to
    infinity.  A request body holding it is passed on with [null] in its
    place, and an upstream body holding it comes back with [null] in its
    place: neither is what it was. *)
Lemma POST_rewrites_overflowing_number :
  map (fun call => JSON_parse (body call))
      (fetched
         (POST (Normal (JObject [(lit "message", JNumber PrimFloat.infinity)]))
               (fun _ => Normal {| status := 200;
                                   json := Normal (JObject [(lit "response",
                                                             JNumber PrimFloat.infinity)]) |})))
  = [JObject [(lit "message", JNull)]]
  /\ JObject [(lit "message", JNull)]
     <> JObject [(lit "message", JNumber PrimFloat.infinity)]
  /\ reply_body
       (reply
          (POST (Normal (JObject [(lit "message", JNumber PrimFloat.infinity)]))
                (fun _ => Normal {| status := 200;
                                    json := Normal (JObject [(lit "response",
                                                              JNumber PrimFloat.infinity)]) |})))
     = JObject [(lit "response", JNull)]
  /\ JObject [(lit "response", JNull)]
     <> JObject [(lit "response", JNumber PrimFloat.infinity)].
Proof.
  split; [reflexivity |]. split; [discriminate |].
  split; [reflexivity | discriminate].
Qed.

(** C7, as the code has it.  When the agent answers with an HTTP error
    status S from 400 to 599 (the client and server error classes), the
    handler answers with status S and the JSON object whose "error" field
    reads "Agent returned S". *)
Theorem POST_propagates_error_status
    (body : Json) (agent : FetchCall -> Completion Response)
    (response : Response) :
  agent (forward body) = Normal response ->
  (400 <= status response <= 599)%Z ->
  reply (POST (Normal body) agent) =
    {| reply_status := status response;
       reply_body :=
         JObject [(lit "error",
                   JString (lit "Agent returned " ++ int_to_string (status response)))] |}.
Proof.
  intros Hanswer Hcode.
  unfold POST, try_block. rewrite Hanswer. cbn [bind].
  unfold relay. rewrite not_ok_from_400 by lia. cbn [negb].
  rewrite NextResponse_json_error_status by exact Hcode.
  reflexivity.
Qed.

Lemma POST_propagates_error_status_witness :
  reply (POST (Normal (JObject [(lit "message", JString (lit "hi"))]))
              (fun _ => Normal {| status := 503; json := Throw (new_Error (lit "no body")) |}))
  = {| reply_status := 503;
       reply_body := JObject [(lit "error", JString (lit "Agent returned 503"))] |}.
Proof.
  apply (@POST_propagates_error_status
           (JObject [(lit "message", JString (lit "hi"))])
           (fun _ => Normal {| status := 503; json := Throw (new_Error (lit "no body")) |})
           {| status := 503; json := Throw (new_Error (lit "no body")) |}).
  - reflexivity.
  - cbn. lia.
Defined.

(** Status 999 is a status an upstream response can carry; the handler
    does not answer with it but with the 502 fallback, as the platform
    refuses to build a response with a status above 599. *)
Lemma POST_status_999_not_propagated :
  reply (POST (Normal (JObject [(lit "message", JString (lit "hi"))]))
              (fun _ => Normal {| status := 999; json := Throw (new_Error (lit "no body")) |}))
  = fallback
  /\ reply_status
       (reply (POST (Normal (JObject [(lit "message", JString (lit "hi"))]))
                    (fun _ => Normal {| status := 999;
                                        json := Throw (new_Error (lit "no body")) |})))
     <> 999%Z.
Proof. split; [reflexivity | discriminate]. Qed.

(** C8.  Whatever the request body (parsed or not), when the agent's
    endpoint gives no usable answer (the call fails, or a success status
    comes with a body that is not JSON), the handler answers with status
    502 and the fixed object whose "response" field tells to make sure the
    backend is running. *)
Theorem POST_fallback_when_unreachable
    (req_json : Completion Json) (agent : FetchCall -> Completion Response) :
  (forall call, unreachable (agent call) = true) ->
  reply (POST req_json agent) =
    {| reply_status := 502;
       reply_body :=
         JObject [(lit "response",
                   JString (lit "Cannot reach the agent backend. Make sure chatbot_agent.py is running on port 8001."))] |}.
Proof.
  intros Hdown. change (reply (POST req_json agent) = fallback).
  destruct req_json as [err | body].
  - reflexivity.
  - specialize (Hdown (forward body)).
    unfold POST, try_block.
    destruct (agent (forward body)) as [err | response]; cbn [bind].
    + reflexivity.
    + cbn [unreachable] in Hdown. apply andb_prop in Hdown as [Hok Hjson].
      unfold relay. rewrite Hok. cbn [negb].
      destruct (json response) as [err | data]; [reflexivity | discriminate].
Qed.

Lemma POST_fallback_when_unreachable_witness :
  reply (POST (Normal (JObject [(lit "message", JString (lit "hi"))]))
              (fun _ => Throw (new_TypeError (lit "fetch failed"))))
  = {| reply_status := 502;
       reply_body :=
         JObject [(lit "response",
                   JString (lit "Cannot reach the agent backend. Make sure chatbot_agent.py is running on port 8001."))] |}.
Proof.
  apply (@POST_fallback_when_unreachable
           (Normal (JObject [(lit "message", JString (lit "hi"))]))
           (fun _ => Throw (new_TypeError (lit "fetch failed")))).
  intros call. reflexivity.
Defined.

(** C10.  When the request body is not valid JSON, the handler makes no
    call to the agent and answers with the same 502 fallback response as
    it does for a parsed body when the call to the agent fails: the two
    responses are equal. *)
Theorem POST_invalid_body_as_unreachable
    (err : Thrown) (agent : FetchCall -> Completion Response) :
  fetched (POST (Throw err) agent) = []
  /\ reply (POST (Throw err) agent) = fallback
  /\ reply_status (reply (POST (Throw err) agent)) = 502%Z
  /\ forall (body : Json) (network_err : Thrown),
       reply (POST (Normal body) (fun _ => Throw network_err))
       = reply (POST (Throw err) agent).
Proof.
  repeat split.
Qed.

(** Outside the HTTP status range the platform refuses to build the
    error response, and the [catch] block answers instead. *)
Remark POST_status_999 (body : Json) (payload : Completion Json) :
  reply (POST (Normal body) (fun _ => Normal {| status := 999; json := payload |}))
  = fallback.
Proof. reflexivity. Qed.

(** Only the console tells a rejected request body from a failed call. *)
Remark POST_console_line (err : Thrown) (agent : FetchCall -> Completion Response) :
  console (POST (Throw err) agent)
  = [[lit "[/api/chat proxy error]";
      if instanceofError err then message err else lit "Unknown error"]].
Proof. reflexivity. Qed.

End ProxyFacts.

(* ================================================================== *)
(** ** Properties of the message component *)
(* ================================================================== *)

Module ChatMessageFacts.
Import JS ChatMessage.

Lemma strip_prefix_app (p s rest : jsstring) :
  strip_prefix p s = Some rest -> s = p ++ rest.
Proof.
  revert s. induction p as [| x p IH]; intros s H; cbn in H.
  - now inversion H.
  - destruct s as [| y s]; [discriminate |].
    destruct (N.eqb_spec x y) as [-> | _]; [| discriminate].
    cbn. f_equal. now apply IH.
Qed.

(** What [run_then_close] accepts: a non-empty run without asterisks,
    then a marker. *)
Lemma run_then_close_sound (s run rest : jsstring) :
  run_then_close s = Some (run, rest) ->
  s = run ++ marker ++ rest
  /\ run <> []
  /\ Forall (fun c => c <> asterisk) run.
Proof.
  revert run rest. induction s as [| c s IH]; intros run rest H;
    cbn [run_then_close] in H.
  - discriminate.
  - destruct (N.eqb_spec c asterisk) as [_ | Hc]; [discriminate |].
    destruct (run_then_close s) as [[run' rest'] |] eqn:Hrec.
    + inversion H; subst. destruct (IH _ _ eq_refl) as (-> & _ & Hall).
      repeat split; [discriminate | now constructor].
    + destruct (strip_prefix marker s) as [rest' |] eqn:Hclose; [| discriminate].
      inversion H; subst. apply strip_prefix_app in Hclose as ->.
      repeat split; [discriminate | repeat constructor; exact Hc].
Qed.

(** A match is a prefix of the text, of the shape marker, run, marker. *)
Lemma match_bold_sound (s captured rest : jsstring) :
  match_bold s = Some (captured, rest) ->
  s = captured ++ rest
  /\ exists run, captured = marker ++ run ++ marker
                 /\ run <> []
                 /\ Forall (fun c => c <> asterisk) run.
Proof.
  unfold match_bold. intros H.
  destruct (strip_prefix marker s) as [s1 |] eqn:Hopen; [| discriminate].
  destruct (run_then_close s1) as [[run rest'] |] eqn:Hrun; [| discriminate].
  inversion H; subst. apply strip_prefix_app in Hopen as ->.
  destruct (run_then_close_sound _ Hrun) as (-> & Hne & Hall).
  split.
  - unfold marker. cbn. now rewrite <- app_assoc.
  - now exists run.
Qed.

Lemma match_bold_shorter (s captured rest : jsstring) :
  match_bold s = Some (captured, rest) ->
  List.length rest + 5 <= List.length s.
Proof.
  intros H. destruct (match_bold_sound _ H) as (-> & run & -> & Hne & _).
  rewrite !length_app. cbn. destruct run; [easy | cbn; lia].
Qed.

(** The scan never runs out of fuel: any two bounds that cover the text
    give the same pieces. *)
Lemma split_bold_from_fuel (fuel1 fuel2 : nat) (pending s : jsstring) :
  List.length s <= fuel1 -> List.length s <= fuel2 ->
  split_bold_from fuel1 pending s = split_bold_from fuel2 pending s.
Proof.
  revert fuel2 pending s.
  induction fuel1 as [| fuel1 IH]; intros fuel2 pending s H1 H2.
  - destruct s; [| cbn in H1; lia].
    destruct fuel2; cbn; now rewrite app_nil_r.
  - destruct fuel2 as [| fuel2].
    + destruct s; [cbn; now rewrite app_nil_r | cbn in H2; lia].
    + destruct s as [| c s]; [reflexivity |].
      cbn [split_bold_from].
      destruct (match_bold (c :: s)) as [[captured rest] |] eqn:Hm.
      * apply match_bold_shorter in Hm. cbn in H1, H2, Hm.
        do 2 f_equal. apply IH; lia.
      * cbn in H1, H2. apply IH; lia.
Qed.

(** The pieces of the split, put together again, are the text scanned. *)
Lemma split_bold_from_concat (fuel : nat) (pending s : jsstring) :
  List.concat (split_bold_from fuel pending s) = rev pending ++ s.
Proof.
  revert pending s. induction fuel as [| fuel IH]; intros pending s; cbn.
  - now rewrite app_nil_r.
  - destruct s as [| c s]; cbn.
    + reflexivity.
    + change (match_bold (c :: s)) with (match_bold (c :: s)).
      destruct (match_bold (c :: s)) as [[captured rest] |] eqn:Hm.
      * destruct (match_bold_sound _ Hm) as (Heq & _).
        cbn. rewrite IH. cbn. now rewrite Heq.
      * rewrite IH. cbn. now rewrite <- app_assoc.
Qed.

Lemma split_bold_concat (line : jsstring) :
  List.concat (split_bold line) = line.
Proof. unfold split_bold. now rewrite split_bold_from_concat. Qed.

Lemma startsWith_app (p s : jsstring) : startsWith p (p ++ s) = true.
Proof.
  induction p as [| x p IH]; cbn; [reflexivity |].
  now rewrite N.eqb_refl.
Qed.

(** A captured group becomes an emphasized span without its markers. *)
Lemma format_part_captured (run : jsstring) :
  format_part (marker ++ run ++ marker) = Strong run.
Proof.
  unfold format_part, endsWith.
  rewrite startsWith_app.
  rewrite app_assoc, rev_app_distr, startsWith_app. cbn [andb].
  f_equal. unfold slice.
  rewrite length_app, length_app. cbn [List.length marker Z.ltb Z.compare].
  replace (Z.min 2 _) with 2%Z by lia.
  replace (Z.max _ 0) with (Z.of_nat (List.length run) + 2)%Z by lia.
  replace (Z.of_nat (List.length run) + 2 - 2)%Z with (Z.of_nat (List.length run)) by lia.
  rewrite Nat2Z.id. change (Z.to_nat 2) with 2.
  cbn [marker app skipn].
  rewrite firstn_app, firstn_all, Nat.sub_diag. cbn. apply app_nil_r.
Qed.

(** A captured group of a split is emphasized: this is what the scan
    emits where the pattern matches. *)
Lemma split_bold_from_match (fuel : nat) (pending s captured rest : jsstring) :
  s <> [] -> match_bold s = Some (captured, rest) ->
  split_bold_from (S fuel) pending s
  = rev pending :: captured :: split_bold_from fuel [] rest.
Proof.
  intros Hne Hm. destruct s as [| c s]; [easy |].
  cbn [split_bold_from]. now rewrite Hm.
Qed.

Lemma strip_prefix_same (p s : jsstring) : strip_prefix p (p ++ s) = Some s.
Proof.
  induction p as [| x p IH]; cbn; [reflexivity |].
  now rewrite N.eqb_refl.
Qed.

(** The other direction: a non-empty run without asterisks, closed by a
    marker, is accepted whole. *)
Lemma run_then_close_complete (run rest : jsstring) :
  run <> [] -> Forall (fun c => c <> asterisk) run ->
  run_then_close (run ++ marker ++ rest) = Some (run, rest).
Proof.
  induction run as [| c run IH]; intros Hne Hall; [easy |].
  inversion Hall as [| c' run' Hc Hrun]; subst.
  cbn [app run_then_close].
  destruct (N.eqb_spec c asterisk) as [He | _]; [contradiction |].
  destruct run as [| d run].
  - reflexivity.
  - now rewrite IH.
Qed.

Lemma match_bold_complete (run rest : jsstring) :
  run <> [] -> Forall (fun c => c <> asterisk) run ->
  match_bold (marker ++ run ++ marker ++ rest)
  = Some (marker ++ run ++ marker, rest).
Proof.
  intros Hne Hall. unfold match_bold.
  rewrite strip_prefix_same.
  now rewrite run_then_close_complete.
Qed.

(** Text without asterisks is passed over without a match. *)
Lemma split_bold_from_skip (pre : jsstring) (fuel : nat) (pending s : jsstring) :
  Forall (fun c => c <> asterisk) pre ->
  split_bold_from (List.length pre + fuel) pending (pre ++ s)
  = split_bold_from fuel (rev pre ++ pending) s.
Proof.
  revert pending. induction pre as [| c pre IH]; intros pending Hall.
  - reflexivity.
  - inversion Hall as [| c' pre' Hc Hpre]; subst.
    cbn [List.length Nat.add app split_bold_from].
    assert (Hm : match_bold (c :: pre ++ s) = None).
    { unfold match_bold, marker. cbn [strip_prefix].
      destruct (N.eqb_spec asterisk c) as [He | _]; [congruence | reflexivity]. }
    rewrite Hm, IH by assumption.
    cbn [rev]. now rewrite <- app_assoc.
Qed.

(** Every [**run**] that follows text without asterisks comes out of the
    split as a piece of its own, and the split goes on after it. *)
Lemma split_bold_emphasis (pre run post : jsstring) :
  Forall (fun c => c <> asterisk) pre ->
  run <> [] -> Forall (fun c => c <> asterisk) run ->
  split_bold (pre ++ marker ++ run ++ marker ++ post)
  = pre :: (marker ++ run ++ marker) :: split_bold post.
Proof.
  intros Hpre Hne Hrun. unfold split_bold.
  rewrite length_app, split_bold_from_skip by assumption.
  rewrite app_nil_r.
  replace (List.length (marker ++ run ++ marker ++ post))
    with (S (S (List.length (run ++ marker ++ post)))) by reflexivity.
  rewrite (@split_bold_from_match _ _ _ (marker ++ run ++ marker) post);
    [| discriminate | exact (match_bold_complete post Hne Hrun)].
  rewrite rev_involutive. do 2 f_equal.
  apply split_bold_from_fuel; [| lia].
  rewrite !length_app. lia.
Qed.

(** The pieces of such a line as [formatText] renders them: the text
    before verbatim, the run emphasized without its markers. *)
Lemma format_emphasis (pre run post : jsstring) :
  Forall (fun c => c <> asterisk) pre ->
  run <> [] -> Forall (fun c => c <> asterisk) run ->
  map format_part (split_bold (pre ++ marker ++ run ++ marker ++ post))
  = Plain pre :: Strong run :: map format_part (split_bold post).
Proof.
  intros Hpre Hne Hrun. rewrite split_bold_emphasis by assumption.
  cbn [map]. rewrite format_part_captured. f_equal.
  unfold format_part.
  destruct Hpre as [| c pre Hc Hpre]; [reflexivity |].
  cbn [marker startsWith].
  destruct (N.eqb_spec asterisk c) as [He | _]; [congruence | reflexivity].
Qed.

Lemma mapi_from_length {A B : Type} (f : nat -> A -> B) (xs : list A) (i : nat) :
  List.length (mapi_from i f xs) = List.length xs.
Proof.
  revert i. induction xs as [| x xs IH]; intros i; cbn; [reflexivity |].
  now rewrite IH.
Qed.

Lemma mapi_from_nth_error {A B : Type} (f : nat -> A -> B) (xs : list A) (i k : nat) :
  nth_error (mapi_from i f xs) k = option_map (f (i + k)) (nth_error xs k).
Proof.
  revert i k. induction xs as [| x xs IH]; intros i k.
  - now destruct k.
  - destruct k as [| k]; cbn.
    + now rewrite Nat.add_0_r.
    + rewrite IH. now rewrite Nat.add_succ_r.
Qed.

(** One piece more than there are separators. *)
Lemma split_length (sep : N) (s : jsstring) :
  List.length (split sep s) = S (count_occ N.eq_dec s sep).
Proof.
  induction s as [| c s IH]; cbn [split]; [reflexivity |].
  cbn [count_occ].
  destruct (N.eqb_spec c sep) as [-> | Hne].
  - destruct (N.eq_dec sep sep); [| easy]. cbn. now rewrite IH.
  - destruct (N.eq_dec c sep); [easy |].
    destruct (split sep s); cbn in *; [discriminate | exact IH].
Qed.

(** One span per line of the text. *)
Lemma formatText_length (text : jsstring) :
  List.length (formatText text) = List.length (split line_feed text).
Proof. apply mapi_from_length. Qed.

(** The span of line [i]: the formatted pieces of that line, and a line
    break unless the line is the last. *)
Lemma formatText_nth (text : jsstring) (i : nat) (span : LineSpan) :
  nth_error (formatText text) i = Some span ->
  exists line,
    nth_error (split line_feed text) i = Some line
    /\ parts span = map format_part (split_bold line)
    /\ br span = negb (Nat.eqb (S i) (List.length (formatText text))).
Proof.
  rewrite formatText_length. unfold formatText.
  rewrite mapi_from_nth_error. cbn [Nat.add].
  destruct (nth_error (split line_feed text) i) as [line |] eqn:Hline;
    [| discriminate].
  cbn [option_map]. intros [= <-]. exists line.
  split; [reflexivity |]. split; [reflexivity |]. cbn [br].
  assert (Hi : i < List.length (split line_feed text))
    by (apply nth_error_Some; congruence).
  destruct (Nat.eqb_spec (S i) (List.length (split line_feed text))) as [He | Hn];
    cbn [negb]; [apply Z.ltb_ge | apply Z.ltb_lt]; lia.
Qed.

(** The example of the specification: two lines, "$500k" emphasized on
    the first, which ends with a line break, and the second line plain
    (10 is the line feed). *)
Example formatText_price_location :
  formatText (lit "Price: **$500k**" ++ [10%N] ++ lit "Location: LA")
  = [ {| parts := [Plain (lit "Price: "); Strong (lit "$500k"); Plain []];
         br := true |};
      {| parts := [Plain (lit "Location: LA")];
         br := false |} ].
Proof. reflexivity. Qed.

(** C3.  A text that is one marker and nothing else is no emphasized
    substring, yet [formatText] renders it as an emphasized span that is
    empty: the two asterisks are not rendered. *)
Theorem formatText_lone_marker :
  split_bold (lit "**") = [lit "**"]
  /\ formatText (lit "**") = [ {| parts := [Strong []]; br := false |} ].
Proof. split; reflexivity. Qed.

(** The same happens to any piece outside the matches that begins and
    ends with a marker. *)
Remark formatText_unmatched_markers :
  formatText (lit "***") = [ {| parts := [Strong []]; br := false |} ]
  /\ formatText (lit "****") = [ {| parts := [Strong []]; br := false |} ]
  /\ formatText (lit "**a* b**")
     = [ {| parts := [Strong (lit "a* b")]; br := false |} ].
Proof. repeat split; reflexivity. Qed.

(** C2, as the code has it.  When the content is a structured object
    with the key "mark" or the key "$schema", an agent message is rendered
    as the chart of that content, and a user message as a user bubble. *)
Theorem chart_path_for_agent_messages (message : Message) :
  has_key (lit "mark") (content message)
  || has_key (lit "$schema") (content message) = true ->
  match role message with
  | agent => ChatMessage message = ChartBubble (content message)
  | user => ChatMessage message = UserBubble []
  end.
Proof.
  intros Hkey. unfold ChatMessage, isVegaSpec.
  destruct (content message) as [| [| b | x | str | items | props]];
    try discriminate.
  cbn [typeof is_object_tag is_null negb andb].
  rewrite Hkey. now destruct (role message).
Qed.

Lemma chart_path_for_agent_messages_witness :
  ChatMessage {| id := lit "m1";
                 role := agent;
                 content := Value (JObject [(lit "mark", JString (lit "bar"))]);
                 timestamp := 0 |}
  = ChartBubble (Value (JObject [(lit "mark", JString (lit "bar"))])).
Proof.
  apply (@chart_path_for_agent_messages
           {| id := lit "m1";
              role := agent;
              content := Value (JObject [(lit "mark", JString (lit "bar"))]);
              timestamp := 0 |}).
  reflexivity.
Defined.

(** A user message whose content is an object with the key "mark" is
    not rendered as a chart: it gets the user bubble, with no text. *)
Lemma user_message_not_charted :
  has_key (lit "mark") (Value (JObject [(lit "mark", JString (lit "bar"))])) = true
  /\ ChatMessage {| id := lit "m1";
                    role := user;
                    content := Value (JObject [(lit "mark", JString (lit "bar"))]);
                    timestamp := 0 |}
     = UserBubble []
  /\ ChatMessage {| id := lit "m1";
                    role := user;
                    content := Value (JObject [(lit "mark", JString (lit "bar"))]);
                    timestamp := 0 |}
     <> ChartBubble (Value (JObject [(lit "mark", JString (lit "bar"))])).
Proof. repeat split. discriminate. Qed.

End ChatMessageFacts.

(* ================================================================== *)
(** ** Properties of the page component *)
(* ================================================================== *)

Module PageFacts.
Import JS ChatMessage Page.

Lemma str_eqb_nil (s : jsstring) : str_eqb s [] = true <-> s = [].
Proof. destruct s; cbn; split; congruence. Qed.

(** The guard of [sendMessage] (line 40). *)
Lemma sendMessage_ignored (text : jsstring) (fresh : Fresh) (st : PageState) :
  isLoading st = true \/ trim text = [] ->
  sendMessage text fresh st = (st, None).
Proof.
  intros [Hbusy | Hempty]; unfold sendMessage.
  - rewrite Hbusy. now rewrite orb_true_r.
  - rewrite Hempty. reflexivity.
Qed.

Lemma sendMessage_accepted (text : jsstring) (fresh : Fresh) (st : PageState) :
  trim text <> [] -> isLoading st = false ->
  sendMessage text fresh st =
    ({| messages :=
          messages st
          ++ [{| id := uuid fresh;
                 role := user;
                 content := Value (JString (trim text));
                 timestamp := now fresh |}];
        input := [];
        isLoading := true;
        showWelcome := false;
        abortRef := Some {| aborted := false |} |},
     Some (chat_request (trim text) {| aborted := false |})).
Proof.
  intros Hne Hidle. unfold sendMessage. rewrite Hidle.
  destruct (str_eqb (trim text) []) eqn:He.
  - apply str_eqb_nil in He. contradiction.
  - reflexivity.
Qed.

Section Sessions.

Variable loaded_at : Z.

(** With a render just before it, an event keeps single flight: the
    guard of a send then reads the current loading state. *)
Lemma rendered_step_single_flight (e : Event) (s : Session) :
  single_flight s -> single_flight (step loaded_at e (step loaded_at Rendered s)).
Proof.
  unfold single_flight. intros Hs.
  destruct e as [value | text fresh | fetched fresh | | n fetched fresh |];
    cbn [step page rendered outstanding].
  - exact Hs.
  - unfold as_captured. cbn [page rendered].
    destruct (Bool.bool_dec (isLoading (page s)) true) as [Hbusy | Hidle].
    { rewrite sendMessage_ignored by (left; exact Hbusy). exact Hs. }
    destruct (list_eq_dec N.eq_dec (trim text) []) as [Hempty | Hne].
    { rewrite sendMessage_ignored by (right; exact Hempty). exact Hs. }
    apply not_true_is_false in Hidle.
    rewrite sendMessage_accepted by assumption. cbn [page outstanding].
    destruct (outstanding s) as [| call [| call' rest]];
      [reflexivity | congruence | contradiction].
  - unfold settle. cbn [outstanding].
    destruct (outstanding s) as [| call [| call' rest]];
      cbn [nth_error page outstanding]; [exact Hs | reflexivity | contradiction].
  - exact Hs.
  - unfold settle. cbn [outstanding].
    destruct (outstanding s) as [| call [| call' rest]];
      cbn [nth_error page outstanding]; [exact Hs | | contradiction].
    destruct n; exact Hs.
  - exact Hs.
Qed.

Lemma fold_rendered_between (es : list Event) (s : Session) :
  single_flight s ->
  single_flight (fold_left (fun s e => step loaded_at e s) (rendered_between es) s).
Proof.
  revert s. induction es as [| e es IH]; intros s Hs; cbn.
  - exact Hs.
  - apply IH. now apply rendered_step_single_flight.
Qed.

(** When React renders again before every event, at most one request is
    outstanding, and the page is loading exactly while there is one. *)
Lemma rendered_between_single_flight (es : list Event) :
  single_flight (run loaded_at (rendered_between es)).
Proof. apply fold_rendered_between. reflexivity. Qed.

End Sessions.

(** C1, as the code has it.  For every text that is not empty after
    trimming, sent while no request is in flight, [sendMessage] makes one
    [fetch] call: a POST of the JSON object with the trimmed text as
    "message", addressed to the agent itself (the address the proxy route
    forwards to), and not to the route [/api/chat]. *)
Theorem send_posts_to_agent (text : jsstring) (fresh : Fresh) (st : PageState) :
  trim text <> [] -> isLoading st = false ->
  snd (sendMessage text fresh st) =
    Some {| url := lit "http://127.0.0.1:8001/chat";
            method := lit "POST";
            headers := [(lit "Content-Type", lit "application/json")];
            body := JSON_stringify (JObject [(lit "message", JString (trim text))]);
            signal := Some {| aborted := false |} |}
  /\ lit "http://127.0.0.1:8001/chat" = Proxy.AGENT_URL
  /\ endsWith (lit "/api/chat") (lit "http://127.0.0.1:8001/chat") = false.
Proof.
  intros Hne Hidle. rewrite sendMessage_accepted by assumption.
  repeat split.
Qed.

Lemma send_posts_to_agent_witness :
  snd (sendMessage (lit " hi ") {| uuid := lit "u1"; now := 1 |} (initial 0)) =
    Some {| url := lit "http://127.0.0.1:8001/chat";
            method := lit "POST";
            headers := [(lit "Content-Type", lit "application/json")];
            body := JSON_stringify (JObject [(lit "message", JString (trim (lit " hi ")))]);
            signal := Some {| aborted := false |} |}
  /\ lit "http://127.0.0.1:8001/chat" = Proxy.AGENT_URL
  /\ endsWith (lit "/api/chat") (lit "http://127.0.0.1:8001/chat") = false.
Proof.
  apply (@send_posts_to_agent (lit " hi ") {| uuid := lit "u1"; now := 1 |} (initial 0)).
  - vm_compute. discriminate.
  - reflexivity.
Defined.

(** The request of a first message "hi" goes to the agent's address,
    which is not the proxy route. *)
Lemma send_does_not_call_proxy :
  option_map url
    (snd (sendMessage (lit "hi") {| uuid := lit "u1"; now := 1 |} (initial 0)))
  = Some (lit "http://127.0.0.1:8001/chat")
  /\ option_map url
       (snd (sendMessage (lit "hi") {| uuid := lit "u1"; now := 1 |} (initial 0)))
     <> Some (lit "/api/chat")
  /\ endsWith (lit "/api/chat") (lit "http://127.0.0.1:8001/chat") = false.
Proof.
  split; [reflexivity |]. split; [| reflexivity].
  vm_compute. discriminate.
Qed.

(** C4.  Two sends handled within one render: the first puts the page
    in the loading state, yet the second passes the guard as well, because
    the callback reads the [isLoading] its render captured.  Two requests
    are outstanding and two user messages are appended. *)
Theorem double_send_in_one_render :
  isLoading (page (run 0 [Send (lit "a") {| uuid := lit "u1"; now := 1 |}])) = true
  /\ outstanding (run 0 [Send (lit "a") {| uuid := lit "u1"; now := 1 |};
                         Send (lit "b") {| uuid := lit "u2"; now := 2 |}])
     = [chat_request (lit "a") {| aborted := false |};
        chat_request (lit "b") {| aborted := false |}]
  /\ messages (page (run 0 [Send (lit "a") {| uuid := lit "u1"; now := 1 |};
                            Send (lit "b") {| uuid := lit "u2"; now := 2 |}]))
     = [WELCOME 0;
        {| id := lit "u1"; role := user; content := Value (JString (lit "a"));
           timestamp := 1 |};
        {| id := lit "u2"; role := user; content := Value (JString (lit "b"));
           timestamp := 2 |}].
Proof. repeat split. Qed.

(** Once React has rendered the loading state, the second send is
    ignored. *)
Remark second_send_after_render :
  run 0 [Send (lit "a") {| uuid := lit "u1"; now := 1 |}; Rendered;
         Send (lit "b") {| uuid := lit "u2"; now := 2 |}]
  = run 0 [Send (lit "a") {| uuid := lit "u1"; now := 1 |}; Rendered].
Proof. reflexivity. Qed.

(** C5.  When the request in flight ends by cancellation, the run of
    [sendMessage] that awaited it appends nothing: the messages stay as
    they are, and only the loading state is cleared. *)
Theorem cancelled_request_adds_no_message
    (fetched : Completion Response) (fresh : Fresh) (st : PageState) :
  cancelled fetched ->
  messages (sendMessage_settled fetched fresh st) = messages st
  /\ sendMessage_settled fetched fresh st = setIsLoading false st.
Proof.
  intros Hc. destruct Hc as [msg | code msg [Hlo Hhi]].
  - split; reflexivity.
  - unfold sendMessage_settled, read_reply, ok. cbn [bind status json].
    apply Z.leb_le in Hlo, Hhi. rewrite Hlo, Hhi. split; reflexivity.
Qed.

Lemma cancelled_request_adds_no_message_witness :
  messages
    (sendMessage_settled (Throw (AbortError (lit "The user aborted a request.")))
       {| uuid := lit "u2"; now := 2 |}
       (page (run 0 [Send (lit "hi") {| uuid := lit "u1"; now := 1 |}])))
  = messages (page (run 0 [Send (lit "hi") {| uuid := lit "u1"; now := 1 |}])).
Proof.
  apply (@cancelled_request_adds_no_message
           (Throw (AbortError (lit "The user aborted a request.")))
           {| uuid := lit "u2"; now := 2 |}
           (page (run 0 [Send (lit "hi") {| uuid := lit "u1"; now := 1 |}]))).
  apply cancelled_fetch.
Defined.

(** Any other failure appends the error message. *)
Remark failed_request_adds_error (fresh : Fresh) (st : PageState) (msg : jsstring) :
  messages (sendMessage_settled (Throw (new_TypeError msg)) fresh st)
  = messages st
    ++ [{| id := uuid fresh;
           role := agent;
           content := Value (JString error_text);
           timestamp := now fresh |}].
Proof. reflexivity. Qed.

(** C9.  Whatever the state, [clearChat] leaves exactly one message, the
    welcome message, and shows the welcome block again, as the first
    render does. *)
Theorem clearChat_resets (loaded_at : Z) (st : PageState) :
  messages (clearChat loaded_at st) = [WELCOME loaded_at]
  /\ List.length (messages (clearChat loaded_at st)) = 1
  /\ showWelcome (clearChat loaded_at st) = showWelcome (initial loaded_at)
  /\ showWelcome (clearChat loaded_at st) = true.
Proof. repeat split. Qed.

End PageFacts.

(* ================================================================== *)
(** ** More on the proxy route *)
(* ================================================================== *)

Module ProxyBehaviour.
Import JS Proxy.

(** The error object of the handler for an upstream status. *)
Lemma NextResponse_json_normal (data : Json) (code : Z) (r : Reply) :
  NextResponse_json data code = Normal r ->
  r = {| reply_status := code; reply_body := serialised data |}
  /\ (200 <= code <= 599)%Z.
Proof.
  unfold NextResponse_json.
  destruct (Z.ltb_spec code 200) as [Hlo | Hlo]; cbn [orb]; [discriminate |].
  destruct (Z.ltb_spec 599 code) as [Hhi | Hhi]; [discriminate |].
  destruct (null_body_status code); [discriminate |].
  intros [= <-]. split; [reflexivity | lia].
Qed.

(** How the statements after [fetch] can end well: with the upstream
    body under status 200, or with the error object under the upstream's
    own status. *)
Lemma relay_normal (response : Response) (r : Reply) :
  relay response = Normal r ->
  (ok response = true
   /\ exists data, json response = Normal data
                   /\ r = {| reply_status := 200; reply_body := serialised data |})
  \/ (ok response = false
      /\ (200 <= status response <= 599)%Z
      /\ r = {| reply_status := status response;
                reply_body :=
                  JObject [(lit "error",
                            JString (lit "Agent returned "
                                     ++ int_to_string (status response)))] |}).
Proof.
  unfold relay. destruct (ok response) eqn:Hok; cbn [negb].
  - destruct (json response) as [err | data]; cbn [bind]; [discriminate |].
    intros H. apply NextResponse_json_normal in H as [-> _].
    left. split; [reflexivity |]. now exists data.
  - intros H. apply NextResponse_json_normal in H as [-> Hrange].
    right. repeat split; lia.
Qed.

(** X1.  The handler calls the agent exactly once for a request body it
    could parse, whatever the agent answers, and not at all otherwise:
    there is no retry and no second destination. *)
Theorem POST_calls_agent_once
    (req_json : Completion Json) (agent : FetchCall -> Completion Response) :
  fetched (POST req_json agent)
  = match req_json with
    | Throw _ => []
    | Normal body => [forward body]
    end.
Proof.
  unfold POST, try_block. destruct req_json as [err | body]; [reflexivity |].
  destruct (agent (forward body)) as [err | response]; cbn [bind]; [reflexivity |].
  destruct (relay response); reflexivity.
Qed.

(** X2.  The status of the handler's response is 200, 502, or the status
    of a non-success upstream response, which then lies in 200..599. *)
Theorem POST_reply_status
    (req_json : Completion Json) (agent : FetchCall -> Completion Response) :
  reply_status (reply (POST req_json agent)) = 200%Z
  \/ reply_status (reply (POST req_json agent)) = 502%Z
  \/ exists body response,
       req_json = Normal body
       /\ agent (forward body) = Normal response
       /\ ok response = false
       /\ (200 <= status response <= 599)%Z
       /\ reply_status (reply (POST req_json agent)) = status response.
Proof.
  unfold POST, try_block. destruct req_json as [err | body]; [right; left; reflexivity |].
  destruct (agent (forward body)) as [err | response] eqn:Hanswer; cbn [bind];
    [right; left; reflexivity |].
  destruct (relay response) as [err | r] eqn:Hrelay; [right; left; reflexivity |].
  apply relay_normal in Hrelay as [(Hok & data & Hjson & ->) | (Hok & Hrange & ->)].
  - left. reflexivity.
  - right. right. exists body, response. repeat split; trivial; lia.
Qed.

(** X3.  The handler writes to the console exactly when it answers with
    the fallback response: a relayed answer, even one with status 502, is
    neither logged nor equal to the fallback. *)
Theorem POST_logs_iff_fallback
    (req_json : Completion Json) (agent : FetchCall -> Completion Response) :
  (console (POST req_json agent) = [] <-> reply (POST req_json agent) <> fallback)
  /\ List.length (console (POST req_json agent)) <= 1.
Proof.
  unfold POST. destruct (try_block req_json agent) as [[err | r] calls] eqn:Htry.
  - cbn. split; [| lia]. split; [discriminate | congruence].
  - cbn [reply console List.length]. split; [| lia].
    split; [| reflexivity]. intros _.
    unfold try_block in Htry. destruct req_json as [err | body]; [discriminate |].
    injection Htry as Hrun _.
    destruct (agent (forward body)) as [err | response]; cbn [bind] in Hrun;
      [discriminate |].
    apply relay_normal in Hrun as [(_ & data & _ & ->) | (_ & _ & ->)];
      unfold fallback; intros H; discriminate H.
Qed.

(** X4.  The body of a non-success upstream response is never read:
    two such responses with the same status get the same answer. *)
Theorem POST_error_reply_ignores_body
    (body : Json) (code : Z) (payload1 payload2 : Completion Json) :
  (code < 200 \/ 299 < code)%Z ->
  POST (Normal body) (fun _ => Normal {| status := code; json := payload1 |})
  = POST (Normal body) (fun _ => Normal {| status := code; json := payload2 |}).
Proof.
  intros Hcode. unfold POST, try_block. cbn [bind]. unfold relay.
  assert (Hok : forall p, ok {| status := code; json := p |} = false).
  { intros p. unfold ok. cbn [status].
    destruct (Z.leb_spec 200 code); destruct (Z.leb_spec code 299);
      cbn; trivial; lia. }
  now rewrite !Hok.
Qed.

Lemma POST_error_reply_ignores_body_witness :
  POST (Normal (JObject [(lit "message", JString (lit "hi"))]))
       (fun _ => Normal {| status := 500; json := Normal JNull |})
  = POST (Normal (JObject [(lit "message", JString (lit "hi"))]))
         (fun _ => Normal {| status := 500; json := Throw (new_Error (lit "bad json")) |}).
Proof.
  apply (@POST_error_reply_ignores_body
           (JObject [(lit "message", JString (lit "hi"))]) 500
           (Normal JNull) (Throw (new_Error (lit "bad json")))).
  right. lia.
Defined.

(** X5.  An upstream status that a response cannot carry (below 200,
    above 599, or 304, which admits no body) makes the handler answer with
    the 502 fallback, and the refusal is the line logged. *)
Theorem POST_unusable_status
    (body : Json) (agent : FetchCall -> Completion Response) (response : Response) :
  agent (forward body) = Normal response ->
  (status response < 200 \/ 599 < status response \/ status response = 304)%Z ->
  reply (POST (Normal body) agent) = fallback
  /\ List.length (console (POST (Normal body) agent)) = 1.
Proof.
  intros Hanswer Hcode. unfold POST, try_block. rewrite Hanswer. cbn [bind].
  unfold relay.
  assert (Hok : ok response = false).
  { unfold ok. destruct (Z.leb_spec 200 (status response));
      destruct (Z.leb_spec (status response) 299); cbn; trivial; lia. }
  rewrite Hok. cbn [negb]. unfold NextResponse_json.
  destruct (Z.ltb_spec (status response) 200) as [Hlo | Hlo]; cbn [orb];
    [split; reflexivity |].
  destruct (Z.ltb_spec 599 (status response)) as [Hhi | Hhi];
    [split; reflexivity |].
  assert (H304 : status response = 304%Z) by lia.
  rewrite H304. split; reflexivity.
Qed.

Lemma POST_unusable_status_witness :
  reply (POST (Normal JNull)
              (fun _ => Normal {| status := 304; json := Throw (new_Error (lit "empty")) |}))
  = fallback
  /\ List.length
       (console (POST (Normal JNull)
                      (fun _ => Normal {| status := 304;
                                          json := Throw (new_Error (lit "empty")) |})))
     = 1.
Proof.
  apply (@POST_unusable_status JNull
           (fun _ => Normal {| status := 304; json := Throw (new_Error (lit "empty")) |})
           {| status := 304; json := Throw (new_Error (lit "empty")) |}).
  - reflexivity.
  - right. right. reflexivity.
Defined.

End ProxyBehaviour.

(* ================================================================== *)
(** ** More on the message component *)
(* ================================================================== *)

Module RenderingBehaviour.
Import JS ChatMessage Markup.

(** X6.  [isVegaSpec] accepts exactly the plain objects that have the
    key "mark" or the key "$schema": [undefined], [null], arrays, strings,
    numbers and booleans are never charts. *)
Theorem isVegaSpec_iff (content : JSValue) :
  isVegaSpec content = true
  <-> exists props,
        content = Value (JObject props)
        /\ (lookup (lit "mark") props <> None
            \/ lookup (lit "$schema") props <> None).
Proof.
  unfold isVegaSpec. split.
  - destruct content as [| [| b | x | str | items | props]];
      cbn [typeof is_object_tag is_null negb andb has_key orb];
      try discriminate.
    intros H. exists props. split; [reflexivity |].
    destruct (lookup (lit "mark") props); [left; discriminate |].
    destruct (lookup (lit "$schema") props); [right; discriminate | discriminate].
  - intros (props & -> & [H | H]); cbn [typeof is_object_tag is_null negb andb has_key].
    + destruct (lookup (lit "mark") props); [reflexivity | contradiction].
    + destruct (lookup (lit "$schema") props); [apply orb_true_r | contradiction].
Qed.

Lemma split_nonempty (sep : N) (s : jsstring) : split sep s <> [].
Proof.
  destruct s as [| c s]; cbn; [discriminate |].
  destruct (N.eqb c sep); [discriminate |].
  destruct (split sep s); discriminate.
Qed.

Lemma split_Forall (P : N -> Prop) (sep : N) (s : jsstring) :
  Forall P s -> Forall (Forall P) (split sep s).
Proof.
  induction 1 as [| c s Hc Hs IH]; cbn [split].
  - repeat constructor.
  - destruct (N.eqb c sep); [now constructor |].
    destruct (split sep s) as [| piece pieces]; [repeat constructor; exact Hc |].
    inversion IH; subst. constructor; [now constructor | assumption].
Qed.

Lemma split_bold_plain (line : jsstring) :
  Forall (fun c => c <> asterisk) line -> split_bold line = [line].
Proof.
  intros Hline. unfold split_bold.
  pose proof (@ChatMessageFacts.split_bold_from_skip line 0 [] [] Hline) as H.
  rewrite Nat.add_0_r, !app_nil_r in H. rewrite H.
  cbn. now rewrite app_nil_r, rev_involutive.
Qed.

Lemma format_part_plain (piece : jsstring) :
  Forall (fun c => c <> asterisk) piece -> format_part piece = Plain piece.
Proof.
  intros Hpiece. unfold format_part.
  destruct Hpiece as [| c piece Hc Hpiece]; [reflexivity |].
  cbn [marker startsWith].
  destruct (N.eqb_spec asterisk c) as [He | _]; [congruence | reflexivity].
Qed.

Lemma map_parts_mapi (n : Z) (lines : list jsstring) (i : nat) :
  map parts
    (mapi_from i
       (fun j line =>
          {| parts := map format_part (split_bold line);
             br := (Z.of_nat j <? n)%Z |})
       lines)
  = map (fun line => map format_part (split_bold line)) lines.
Proof.
  revert i. induction lines as [| line lines IH]; intros i; cbn; [reflexivity |].
  now rewrite IH.
Qed.

(** X7.  A text without asterisks is rendered verbatim: every line is one
    plain part holding the line. *)
Theorem formatText_without_asterisks (text : jsstring) :
  Forall (fun c => c <> asterisk) text ->
  map parts (formatText text)
  = map (fun line => [Plain line]) (split line_feed text).
Proof.
  intros Htext. unfold formatText. rewrite map_parts_mapi.
  apply map_ext_in. intros line Hin.
  pose proof (split_Forall line_feed Htext) as Hlines.
  rewrite Forall_forall in Hlines. specialize (Hlines line Hin).
  rewrite split_bold_plain by exact Hlines. cbn [map].
  now rewrite format_part_plain.
Qed.

Lemma formatText_without_asterisks_witness :
  map parts (formatText (lit "a < b" ++ [10%N] ++ lit "done"))
  = map (fun line => [Plain line]) (split line_feed (lit "a < b" ++ [10%N] ++ lit "done")).
Proof.
  apply (@formatText_without_asterisks (lit "a < b" ++ [10%N] ++ lit "done")).
  repeat constructor; discriminate.
Defined.

Lemma breaks_of_mapi (n : nat) (lines : list jsstring) (i : nat) :
  lines <> [] -> i + List.length lines = n ->
  List.length
    (filter br
       (mapi_from i
          (fun j line =>
             {| parts := map format_part (split_bold line);
                br := (Z.of_nat j <? Z.of_nat n - 1)%Z |})
          lines))
  = List.length lines - 1.
Proof.
  revert i. induction lines as [| line lines IH]; intros i Hne Hn; [easy |].
  cbn [mapi_from filter br List.length] in *.
  destruct lines as [| line' lines].
  - cbn in Hn. destruct (Z.ltb_spec (Z.of_nat i) (Z.of_nat n - 1)); [lia |].
    reflexivity.
  - cbn in Hn. destruct (Z.ltb_spec (Z.of_nat i) (Z.of_nat n - 1)); [| lia].
    cbn [List.length]. rewrite IH; [cbn; lia | discriminate | cbn; lia].
Qed.

(** X8.  The layout of [formatText]: one span per line of the text, that
    is one more than the text has line feeds; a span ends with a line break
    exactly when it is not the last; so there are as many line breaks as
    line feeds. *)
Theorem formatText_layout (text : jsstring) :
  List.length (formatText text) = S (count_occ N.eq_dec text line_feed)
  /\ (forall i span,
         nth_error (formatText text) i = Some span ->
         (br span = true <-> S i < List.length (formatText text)))
  /\ List.length (filter br (formatText text)) = count_occ N.eq_dec text line_feed.
Proof.
  split; [| split].
  - rewrite ChatMessageFacts.formatText_length. apply ChatMessageFacts.split_length.
  - intros i span Hspan.
    assert (Hi : i < List.length (formatText text))
      by (apply nth_error_Some; congruence).
    destruct (ChatMessageFacts.formatText_nth _ _ Hspan) as (line & _ & _ & ->).
    destruct (Nat.eqb_spec (S i) (List.length (formatText text))); cbn; split;
      intros; try lia; congruence.
  - unfold formatText.
    rewrite breaks_of_mapi with (n := List.length (split line_feed text));
      [| apply split_nonempty | reflexivity].
    rewrite ChatMessageFacts.split_length. lia.
Qed.

Lemma join_cons (sep c : N) (piece : jsstring) (pieces : list jsstring) :
  join sep ((c :: piece) :: pieces) = c :: join sep (piece :: pieces).
Proof. destruct pieces; reflexivity. Qed.

(** X9.  The lines [formatText] works on are the text cut at its line
    feeds: joined by line feeds they are the text again, and no line holds
    a line feed. *)
Theorem lines_round_trip (text : jsstring) :
  join line_feed (split line_feed text) = text
  /\ Forall (fun line => ~ In line_feed line) (split line_feed text).
Proof.
  induction text as [| c text [IHjoin IHfree]]; cbn [split].
  - split; [reflexivity | repeat constructor; easy].
  - destruct (N.eqb_spec c line_feed) as [-> | Hc].
    + split; [| constructor; [easy | exact IHfree]].
      pose proof (split_nonempty line_feed text) as Hne.
      destruct (split line_feed text) as [| piece pieces] eqn:Hs; [easy |].
      change (join line_feed ([] :: piece :: pieces))
        with (line_feed :: join line_feed (piece :: pieces)).
      now rewrite IHjoin.
    + pose proof (split_nonempty line_feed text) as Hne.
      destruct (split line_feed text) as [| piece pieces] eqn:Hs; [easy |].
      rewrite join_cons, IHjoin. split; [reflexivity |].
      inversion IHfree as [| ? ? Hpiece Hpieces]; subst.
      constructor; [| exact Hpieces].
      intros [He | Hin]; [congruence | contradiction].
Qed.

Lemma startsWith_inv (p s : jsstring) :
  startsWith p s = true -> exists q, s = p ++ q.
Proof.
  revert s. induction p as [| x p IH]; intros s H.
  - now exists s.
  - destruct s as [| y s]; [discriminate |]. cbn in H.
    apply andb_prop in H as [Hxy Hrest]. apply N.eqb_eq in Hxy as ->.
    destruct (IH _ Hrest) as [q ->]. now exists q.
Qed.

(** A piece that begins and ends with a marker is a marker, three
    asterisks, or some text between two markers. *)
Lemma between_markers (piece : jsstring) :
  startsWith marker piece = true -> endsWith marker piece = true ->
  piece = lit "**" \/ piece = lit "***"
  \/ exists mid, piece = marker ++ mid ++ marker.
Proof.
  intros Hstart Hend. apply startsWith_inv in Hstart as [q ->].
  unfold endsWith in Hend. rewrite rev_app_distr in Hend.
  change (rev marker) with marker in Hend.
  destruct (rev q) as [| a [| b r]] eqn:Hq;
    cbn [marker app startsWith] in Hend.
  - left. apply (f_equal (@rev N)) in Hq. rewrite rev_involutive in Hq.
    now subst q.
  - right. left. apply (f_equal (@rev N)) in Hq. rewrite rev_involutive in Hq.
    subst q. apply andb_prop in Hend as [Ha _].
    apply N.eqb_eq in Ha. now subst a.
  - right. right.
    apply andb_prop in Hend as [Ha Hend]. apply andb_prop in Hend as [Hb _].
    apply N.eqb_eq in Ha, Hb. subst a b.
    apply (f_equal (@rev N)) in Hq. rewrite rev_involutive in Hq.
    exists (rev r). rewrite Hq. cbn [rev]. unfold marker.
    now rewrite <- !app_assoc.
Qed.

(** X10.  Apart from the two pieces that are nothing but a marker or
    three asterisks, a rendered part tells the piece it was made of: plain
    text is the piece itself, an emphasized span is the piece without its
    opening and closing marker.  No other text is dropped. *)
Theorem format_part_keeps_text (piece : jsstring) :
  piece <> lit "**" -> piece <> lit "***" ->
  source_of (format_part piece) = piece.
Proof.
  intros H2 H3.
  destruct (startsWith marker piece && endsWith marker piece) eqn:Hboth.
  - apply andb_prop in Hboth as [Hstart Hend].
    destruct (between_markers _ Hstart Hend) as [H | [H | [mid ->]]];
      [contradiction | contradiction |].
    now rewrite ChatMessageFacts.format_part_captured.
  - unfold format_part. now rewrite Hboth.
Qed.

Lemma format_part_keeps_text_witness :
  source_of (format_part (lit "**a* b**")) = lit "**a* b**".
Proof.
  apply (@format_part_keeps_text (lit "**a* b**")); discriminate.
Defined.

End RenderingBehaviour.

(* ================================================================== *)
(** ** More on the page component *)
(* ================================================================== *)

Module SessionBehaviour.
Import JS ChatMessage Page PageView.

Lemma str_eqb_eq (a b : jsstring) : str_eqb a b = true <-> a = b.
Proof.
  revert b. induction a as [| x a IH]; intros [| y b]; cbn; split;
    try congruence; try discriminate.
  - intros H. apply andb_prop in H as [Hxy Hab].
    apply N.eqb_eq in Hxy. apply IH in Hab. congruence.
  - intros [= -> ->]. rewrite N.eqb_refl. now apply IH.
Qed.

Lemma trimStart_idem (s : jsstring) : trimStart (trimStart s) = trimStart s.
Proof.
  induction s as [| c s IH]; [reflexivity |]. cbn [trimStart].
  destruct (is_whitespace c) eqn:Hc; [exact IH |].
  cbn [trimStart]. now rewrite Hc.
Qed.

Lemma trimStart_cases (s : jsstring) :
  trimStart s = []
  \/ exists c t, trimStart s = c :: t /\ is_whitespace c = false.
Proof.
  induction s as [| c s IH]; [now left |]. cbn [trimStart].
  destruct (is_whitespace c) eqn:Hc; [exact IH |].
  right. now exists c, s.
Qed.

Lemma trimStart_snoc (a : jsstring) (c : N) :
  is_whitespace c = false -> exists u, trimStart (a ++ [c]) = u ++ [c].
Proof.
  intros Hc. induction a as [| x a IH]; cbn [app trimStart].
  - rewrite Hc. now exists [].
  - destruct (is_whitespace x); [exact IH |]. now exists (x :: a).
Qed.

Lemma trimEnd_cons (c : N) (t : jsstring) :
  is_whitespace c = false -> exists u, trimEnd (c :: t) = c :: u.
Proof.
  intros Hc. unfold trimEnd. cbn [rev].
  destruct (@trimStart_snoc (rev t) c Hc) as [u ->].
  exists (rev u). now rewrite rev_app_distr.
Qed.

Lemma trimEnd_idem (t : jsstring) : trimEnd (trimEnd t) = trimEnd t.
Proof. unfold trimEnd. now rewrite rev_involutive, trimStart_idem. Qed.

(** Trimming twice is trimming once. *)
Lemma trim_idem (s : jsstring) : trim (trim s) = trim s.
Proof.
  unfold trim. destruct (trimStart_cases s) as [-> | (c & t & -> & Hc)].
  - reflexivity.
  - destruct (@trimEnd_cons c t Hc) as [u Hu]. rewrite Hu.
    cbn [trimStart]. rewrite Hc, <- Hu. apply trimEnd_idem.
Qed.

(** X11.  The send button is disabled exactly in the states in which
    [sendMessage] ignores the current input: an enabled button always
    sends, a disabled one would change nothing. *)
Theorem button_disabled_iff_send_ignored (fresh : Fresh) (st : PageState) :
  send_disabled st = true
  <-> sendMessage (input st) fresh st = (st, None).
Proof.
  unfold send_disabled, sendMessage.
  destruct (str_eqb (trim (input st)) [] || isLoading st); split;
    trivial; discriminate.
Qed.

(** X12.  A key press issues a request only when the key is Enter, Shift
    is not held and the send button is enabled; in every other case it
    leaves the state as it is. *)
Theorem key_sends_only_enter
    (key : jsstring) (shiftKey : bool) (fresh : Fresh) (st : PageState) :
  (snd (handleKeyDown key shiftKey fresh st) <> None
   <-> key = lit "Enter" /\ shiftKey = false /\ send_disabled st = false)
  /\ (snd (handleKeyDown key shiftKey fresh st) = None ->
      fst (handleKeyDown key shiftKey fresh st) = st).
Proof.
  unfold handleKeyDown, send_disabled, sendMessage.
  destruct (str_eqb key (lit "Enter")) eqn:Hkey.
  - apply str_eqb_eq in Hkey. subst key.
    destruct shiftKey; cbn [negb andb].
    + split; [| reflexivity]. split; [easy | now intros (_ & H & _)].
    + destruct (str_eqb (trim (input st)) [] || isLoading st); cbn [snd fst].
      * split; [| reflexivity]. split; [easy | now intros (_ & _ & H)].
      * split; [| discriminate]. split; [now intros _ | discriminate].
  - cbn [andb snd fst]. split; [| reflexivity].
    split; [easy |]. intros (-> & _). cbn in Hkey. discriminate.
Qed.

(** X13.  White space around the text makes no difference: sending a
    text does what sending the trimmed text does. *)
Theorem sendMessage_trim (text : jsstring) (fresh : Fresh) (st : PageState) :
  sendMessage text fresh st = sendMessage (trim text) fresh st.
Proof. unfold sendMessage. now rewrite trim_idem. Qed.

Section Reachable.

Variable loaded_at : Z.

(** A property of the first render that every event keeps holds of every
    session. *)
Lemma run_invariant (P : Session -> Prop) :
  P (start loaded_at) ->
  (forall e s, P s -> P (step loaded_at e s)) ->
  forall es, P (run loaded_at es).
Proof.
  intros Hstart Hstep es. unfold run.
  generalize (start loaded_at) Hstart. induction es as [| e es IH]; intros s Hs.
  - exact Hs.
  - cbn. apply IH. now apply Hstep.
Qed.

(** What a settled request does to the message list: nothing, or one
    agent message more, with the fresh identifier. *)
Lemma settle_messages (n : nat) (fetched : Completion Response) (fresh : Fresh)
    (s : Session) :
  messages (page (settle n fetched fresh s)) = messages (page s)
  \/ exists m, messages (page (settle n fetched fresh s)) = messages (page s) ++ [m]
               /\ id m = uuid fresh /\ role m = agent.
Proof.
  unfold settle. destruct (nth_error (outstanding s) n); [| now left].
  cbn [page]. unfold sendMessage_settled.
  destruct (read_reply fetched) as [err | raw].
  - destruct (instanceofError err && str_eqb (name err) (lit "AbortError")).
    + now left.
    + right. eexists. cbn. repeat split.
  - right. eexists. cbn. repeat split.
Qed.

(** What an event does to the message list: it resets it (a clear),
    leaves it, or appends one message, which carries the identifier the
    event brought in. *)
Lemma step_messages (e : Event) (s : Session) :
  (e = Cleared /\ messages (page (step loaded_at e s)) = [WELCOME loaded_at])
  \/ messages (page (step loaded_at e s)) = messages (page s)
  \/ exists m, messages (page (step loaded_at e s)) = messages (page s) ++ [m]
               /\ uuid_of e = [id m]
               /\ (role m = user ->
                   exists text, content m = Value (JString (trim text))
                                /\ trim text <> []).
Proof.
  destruct e as [value | text fresh | fetched fresh | | n fetched fresh |];
    cbn [step uuid_of].
  - right. left. reflexivity.
  - unfold sendMessage, as_captured.
    destruct (str_eqb (trim text) []) eqn:Hempty; cbn [orb].
    + right. left. reflexivity.
    + cbn [setIsLoading isLoading].
      destruct (isLoading (rendered s)); [right; left; reflexivity |].
      right. right. eexists. cbn. split; [reflexivity |].
      split; [reflexivity |]. intros _. exists text. split; [reflexivity |].
      intros H. rewrite H in Hempty. discriminate.
  - destruct (settle_messages 0 fetched fresh s) as [H | (m & H & Hid & Hrole)].
    + right. left. exact H.
    + right. right. exists m. split; [exact H |]. split; [now rewrite Hid |].
      rewrite Hrole. discriminate.
  - left. split; reflexivity.
  - destruct (settle_messages (S n) fetched fresh s) as [H | (m & H & Hid & Hrole)].
    + right. left. exact H.
    + right. right. exists m. split; [exact H |]. split; [now rewrite Hid |].
      rewrite Hrole. discriminate.
  - right. left. reflexivity.
Qed.

(** X14.  In every session, each user message holds a string that is not
    empty and has no white space at either end (it is its own trim). *)
Theorem user_messages_trimmed (es : list Event) :
  Forall (fun m =>
            role m = user ->
            exists s, content m = Value (JString s) /\ s <> [] /\ trim s = s)
         (messages (page (run loaded_at es))).
Proof.
  apply run_invariant with (P := fun s =>
    Forall (fun m =>
              role m = user ->
              exists s, content m = Value (JString s) /\ s <> [] /\ trim s = s)
           (messages (page s))).
  - repeat constructor. discriminate.
  - intros e s Hs.
    destruct (step_messages e s) as [[_ ->] | [-> | (m & -> & _ & Hm)]].
    + repeat constructor. discriminate.
    + exact Hs.
    + apply Forall_app. split; [exact Hs |]. constructor; [| constructor].
      intros Hrole. destruct (Hm Hrole) as (text & -> & Hne).
      exists (trim text). repeat split; [exact Hne | apply trim_idem].
Qed.

(** X15.  In every session the message list begins with the welcome
    message: it is never empty, and nothing is ever put before or in place
    of the welcome message. *)
Theorem messages_start_with_WELCOME (es : list Event) :
  exists rest, messages (page (run loaded_at es)) = WELCOME loaded_at :: rest.
Proof.
  apply run_invariant with (P := fun s =>
    exists rest, messages (page s) = WELCOME loaded_at :: rest).
  - now exists [].
  - intros e s [rest Hs].
    destruct (step_messages e s) as [[_ ->] | [-> | (m & -> & _)]].
    + now exists [].
    + now exists rest.
    + exists (rest ++ [m]). now rewrite Hs.
Qed.

(** X16.  The message list only grows at its end, by one message at a
    time, except when the chat is cleared: a clear sets the list to the
    welcome message alone, and every other event leaves the list as it is
    or appends one message. *)
Theorem step_append_only (e : Event) (s : Session) :
  match e with
  | Cleared => messages (page (step loaded_at e s)) = [WELCOME loaded_at]
  | _ =>
      messages (page (step loaded_at e s)) = messages (page s)
      \/ exists m, messages (page (step loaded_at e s)) = messages (page s) ++ [m]
  end.
Proof.
  destruct (step_messages e s) as [[He H] | [H | (m & H & _)]].
  - subst e. exact H.
  - destruct e; try (left; exact H). reflexivity.
  - destruct e; try (right; exists m; exact H). reflexivity.
Qed.

Lemma NoDup_app_l {A : Type} (l l' : list A) : NoDup (l ++ l') -> NoDup l'.
Proof.
  induction l as [| a l IH]; cbn; [trivial |].
  intros H. inversion H; subst. now apply IH.
Qed.

Lemma ids_unique_from (es : list Event) (s : Session) :
  NoDup (map id (messages (page s)) ++ uuids es) ->
  ~ In (lit "welcome") (uuids es) ->
  NoDup (map id (messages (page (fold_left (fun s e => step loaded_at e s) es s)))).
Proof.
  revert s. induction es as [| e es IH]; intros s Hnodup Hwelcome.
  - cbn in *. now rewrite app_nil_r in Hnodup.
  - cbn [fold_left]. change (uuids (e :: es)) with (uuid_of e ++ uuids es) in *.
    assert (Hlater : ~ In (lit "welcome") (uuids es))
      by (intros Hin; apply Hwelcome, in_or_app; now right).
    apply IH; [| exact Hlater].
    destruct (step_messages e s) as [[-> ->] | [-> | (m & -> & Hu & _)]].
    + cbn [uuid_of app] in Hnodup. cbn [map WELCOME id app].
      constructor; [exact Hlater | exact (NoDup_app_l _ _ Hnodup)].
    + destruct e as [value | text fresh | fetched fresh | | n fetched fresh |];
        cbn [uuid_of app] in Hnodup;
        trivial; now apply NoDup_remove_1 in Hnodup.
    + rewrite Hu in Hnodup. rewrite map_app. cbn [map]. now rewrite <- app_assoc.
Qed.

(** X17.  As long as the environment never hands out the same identifier
    twice, nor the identifier "welcome", the messages of a session have
    pairwise different identifiers. *)
Theorem message_ids_unique (es : list Event) :
  NoDup (lit "welcome" :: uuids es) ->
  NoDup (map id (messages (page (run loaded_at es)))).
Proof.
  intros H. inversion H as [| ? ? Hwelcome Hnodup]; subst.
  apply ids_unique_from; [| exact Hwelcome].
  cbn [start initial page messages map WELCOME id app].
  exact H.
Qed.

Lemma settle_hero (n : nat) (fetched : Completion Response) (fresh : Fresh)
    (s : Session) :
  (showWelcome (page s) = true ->
   Forall (fun m => role m = agent) (messages (page s))) ->
  showWelcome (page (settle n fetched fresh s)) = true ->
  Forall (fun m => role m = agent) (messages (page (settle n fetched fresh s))).
Proof.
  intros Hs. unfold settle. destruct (nth_error (outstanding s) n); [| exact Hs].
  cbn [page]. unfold sendMessage_settled.
  destruct (read_reply fetched) as [err | raw];
    [destruct (instanceofError err && str_eqb (name err) (lit "AbortError")) |];
    cbn; intros Hw; specialize (Hs Hw); trivial;
    apply Forall_app; split; trivial; repeat constructor.
Qed.

(** X18.  The welcome block is on screen only while the list holds no
    user message: whenever [showWelcome] is set, every message of the
    session is an agent message. *)
Theorem hero_without_user_messages (es : list Event) :
  shows_hero (page (run loaded_at es)) = true ->
  Forall (fun m => role m = agent) (messages (page (run loaded_at es))).
Proof.
  unfold shows_hero.
  apply run_invariant with (P := fun s =>
    showWelcome (page s) = true ->
    Forall (fun m => role m = agent) (messages (page s))).
  - intros _. repeat constructor.
  - intros e s Hs.
    destruct e as [value | text fresh | fetched fresh | | n fetched fresh |];
      cbn [step].
    + exact Hs.
    + unfold sendMessage.
      destruct (str_eqb (trim text) [] || isLoading (as_captured s)); cbn [page];
        [exact Hs | discriminate].
    + apply settle_hero. exact Hs.
    + intros _. repeat constructor.
    + apply settle_hero. exact Hs.
    + exact Hs.
Qed.

(** X19.  Clearing the chat does not cancel the request in flight: the
    request stays outstanding, the loading state stays set, and the answer,
    when it comes, is appended to the new conversation, right after the
    welcome message. *)
Theorem clear_keeps_request
    (s : Session) (fetched : Completion Response) (raw : JSValue) (fresh : Fresh) :
  outstanding s <> [] ->
  read_reply fetched = Normal raw ->
  outstanding (step loaded_at Cleared s) = outstanding s
  /\ isLoading (page (step loaded_at Cleared s)) = isLoading (page s)
  /\ messages (page (step loaded_at (Settled fetched fresh) (step loaded_at Cleared s)))
     = [WELCOME loaded_at;
        {| id := uuid fresh; role := agent; content := raw; timestamp := now fresh |}].
Proof.
  intros Hout Hreply. split; [reflexivity |]. split; [reflexivity |].
  cbn [step]. unfold settle. cbn [outstanding page].
  destruct (outstanding s); [contradiction |].
  cbn [nth_error page]. unfold sendMessage_settled. rewrite Hreply. reflexivity.
Qed.

End Reachable.

Lemma message_ids_unique_witness :
  NoDup (map id
           (messages
              (page (run 0 [Send (lit "hi") {| uuid := lit "u1"; now := 1 |};
                            Settled (Throw (new_TypeError (lit "fetch failed")))
                                    {| uuid := lit "u2"; now := 2 |}])))).
Proof.
  apply (@message_ids_unique 0
           [Send (lit "hi") {| uuid := lit "u1"; now := 1 |};
            Settled (Throw (new_TypeError (lit "fetch failed")))
                    {| uuid := lit "u2"; now := 2 |}]).
  repeat constructor; cbn; intuition discriminate.
Defined.

Lemma hero_without_user_messages_witness :
  Forall (fun m => role m = agent)
         (messages (page (run 0 [Send (lit "hi") {| uuid := lit "u1"; now := 1 |};
                                 Cleared]))).
Proof.
  apply (@hero_without_user_messages 0
           [Send (lit "hi") {| uuid := lit "u1"; now := 1 |}; Cleared]).
  reflexivity.
Defined.

Lemma clear_keeps_request_witness :
  outstanding (step 0 Cleared (run 0 [Send (lit "hi") {| uuid := lit "u1"; now := 1 |}]))
  = outstanding (run 0 [Send (lit "hi") {| uuid := lit "u1"; now := 1 |}])
  /\ isLoading (page (step 0 Cleared (run 0 [Send (lit "hi") {| uuid := lit "u1"; now := 1 |}])))
     = isLoading (page (run 0 [Send (lit "hi") {| uuid := lit "u1"; now := 1 |}]))
  /\ messages
       (page (step 0
                (Settled (Normal {| status := 200;
                                    json := Normal (JObject [(lit "response", JString (lit "ok"))]) |})
                         {| uuid := lit "u2"; now := 2 |})
                (step 0 Cleared (run 0 [Send (lit "hi") {| uuid := lit "u1"; now := 1 |}]))))
     = [WELCOME 0;
        {| id := lit "u2"; role := agent; content := Value (JString (lit "ok"));
           timestamp := 2 |}].
Proof.
  apply (@clear_keeps_request 0
           (run 0 [Send (lit "hi") {| uuid := lit "u1"; now := 1 |}])
           (Normal {| status := 200;
                      json := Normal (JObject [(lit "response", JString (lit "ok"))]) |})
           (Value (JString (lit "ok")))
           {| uuid := lit "u2"; now := 2 |}).
  - discriminate.
  - reflexivity.
Defined.

(** X20.  Whatever the outcome of the request, the run of [sendMessage]
    that awaited it clears the loading state, touches nothing else but the
    message list, and appends at most one message, which is an agent
    message with the fresh identifier and time. *)
Theorem settled_outcome
    (fetched : Completion Response) (fresh : Fresh) (st : PageState) :
  isLoading (sendMessage_settled fetched fresh st) = false
  /\ input (sendMessage_settled fetched fresh st) = input st
  /\ showWelcome (sendMessage_settled fetched fresh st) = showWelcome st
  /\ abortRef (sendMessage_settled fetched fresh st) = abortRef st
  /\ (messages (sendMessage_settled fetched fresh st) = messages st
      \/ exists shown,
           messages (sendMessage_settled fetched fresh st)
           = messages st
             ++ [{| id := uuid fresh; role := agent; content := shown;
                    timestamp := now fresh |}]).
Proof.
  unfold sendMessage_settled.
  destruct (read_reply fetched) as [err | raw].
  - destruct (instanceofError err && str_eqb (name err) (lit "AbortError")).
    + repeat split. now left.
    + repeat split. right. eexists. reflexivity.
  - repeat split. right. eexists. reflexivity.
Qed.

(** X21.  Every failure that is no abort ends in the same way: a failed
    [fetch], a response with a status outside 200..299 (its body is not
    read), a body that is not JSON, or the JSON value [null].  The fixed
    error message is appended, and the message component shows it in the
    error style, as one line of plain text. *)
Theorem failure_shown_as_error
    (fetched : Completion Response) (fresh : Fresh) (st : PageState) :
  (exists err, fetched = Throw err /\ is_AbortError err = false)
  \/ (exists res,
        fetched = Normal res
        /\ (ok res = false
            \/ (ok res = true
                /\ ((exists err, json res = Throw err /\ is_AbortError err = false)
                    \/ json res = Normal JNull)))) ->
  messages (sendMessage_settled fetched fresh st) = messages st ++ [errorMsg fresh]
  /\ ChatMessage (errorMsg fresh)
     = AgentBubble true (Formatted [ {| parts := [Plain error_text]; br := false |} ]).
Proof.
  intros Hfail. split; [| reflexivity].
  unfold sendMessage_settled, read_reply.
  destruct Hfail as [(err & -> & Hab) | (res & -> & [Hok | (Hok & [(err & Hj & Hab) | Hj])])];
    cbn [bind]; try rewrite Hok; cbn [negb]; try rewrite Hj; cbn [bind get_response].
  - unfold is_AbortError in Hab. now rewrite Hab.
  - reflexivity.
  - unfold is_AbortError in Hab. now rewrite Hab.
  - reflexivity.
Qed.

Lemma failure_shown_as_error_witness :
  messages
    (sendMessage_settled (Normal {| status := 500; json := Normal JNull |})
       {| uuid := lit "u2"; now := 2 |} (initial 0))
  = messages (initial 0) ++ [errorMsg {| uuid := lit "u2"; now := 2 |}]
  /\ ChatMessage (errorMsg {| uuid := lit "u2"; now := 2 |})
     = AgentBubble true (Formatted [ {| parts := [Plain error_text]; br := false |} ]).
Proof.
  apply (@failure_shown_as_error
           (Normal {| status := 500; json := Normal JNull |})
           {| uuid := lit "u2"; now := 2 |} (initial 0)).
  right. exists {| status := 500; json := Normal JNull |}.
  split; [reflexivity |]. left. reflexivity.
Defined.

(** X22.  A chart specification passes through untouched: when the agent
    answers with a 2xx status and a JSON object whose "response" field is an
    object with the key "mark" or "$schema", the message appended holds that
    object, and the message component hands that very object to the chart. *)
Theorem chart_reply_is_charted
    (res : Response) (props spec : list (jsstring * Json))
    (fresh : Fresh) (st : PageState) :
  ok res = true ->
  json res = Normal (JObject props) ->
  lookup (lit "response") props = Some (JObject spec) ->
  lookup (lit "mark") spec <> None \/ lookup (lit "$schema") spec <> None ->
  messages (sendMessage_settled (Normal res) fresh st)
  = messages st
    ++ [{| id := uuid fresh; role := agent; content := Value (JObject spec);
           timestamp := now fresh |}]
  /\ ChatMessage {| id := uuid fresh; role := agent; content := Value (JObject spec);
                    timestamp := now fresh |}
     = ChartBubble (Value (JObject spec)).
Proof.
  intros Hok Hjson Hfield Hkeys. split.
  - unfold sendMessage_settled, read_reply. cbn [bind].
    rewrite Hok. cbn [negb]. rewrite Hjson. cbn [bind get_response].
    now rewrite Hfield.
  - unfold ChatMessage. cbn [role content negb andb].
    assert (Hspec : isVegaSpec (Value (JObject spec)) = true).
    { unfold isVegaSpec. cbn [typeof is_object_tag is_null negb andb has_key].
      destruct Hkeys as [Hkey | Hkey].
      - destruct (lookup (lit "mark") spec); [reflexivity | contradiction].
      - destruct (lookup (lit "$schema") spec); [apply orb_true_r | contradiction]. }
    now rewrite Hspec.
Qed.

Lemma chart_reply_is_charted_witness :
  messages
    (sendMessage_settled
       (Normal {| status := 200;
                  json := Normal (JObject [(lit "response",
                                            JObject [(lit "mark", JString (lit "bar"))])]) |})
       {| uuid := lit "u2"; now := 2 |} (initial 0))
  = messages (initial 0)
    ++ [{| id := lit "u2"; role := agent;
           content := Value (JObject [(lit "mark", JString (lit "bar"))]);
           timestamp := 2 |}]
  /\ ChatMessage {| id := lit "u2"; role := agent;
                    content := Value (JObject [(lit "mark", JString (lit "bar"))]);
                    timestamp := 2 |}
     = ChartBubble (Value (JObject [(lit "mark", JString (lit "bar"))])).
Proof.
  apply (@chart_reply_is_charted
           {| status := 200;
              json := Normal (JObject [(lit "response",
                                        JObject [(lit "mark", JString (lit "bar"))])]) |}
           [(lit "response", JObject [(lit "mark", JString (lit "bar"))])]
           [(lit "mark", JString (lit "bar"))]
           {| uuid := lit "u2"; now := 2 |} (initial 0)).
  - reflexivity.
  - reflexivity.
  - reflexivity.
  - left. discriminate.
Defined.

(** X23.  A 2xx answer that is JSON but has no "response" field (an
    object without the key, an array, a string, a number, a boolean) is no
    error for the page: a message with undefined content is appended, and
    the message component shows it as an agent bubble without error style
    that holds the serialisation of [undefined], that is, nothing. *)
Theorem reply_without_response_field
    (res : Response) (data : Json) (fresh : Fresh) (st : PageState) :
  ok res = true ->
  json res = Normal data ->
  data <> JNull ->
  (forall props, data = JObject props -> lookup (lit "response") props = None) ->
  messages (sendMessage_settled (Normal res) fresh st)
  = messages st
    ++ [{| id := uuid fresh; role := agent; content := Undefined;
           timestamp := now fresh |}]
  /\ ChatMessage {| id := uuid fresh; role := agent; content := Undefined;
                    timestamp := now fresh |}
     = AgentBubble false (Serialized Undefined).
Proof.
  intros Hok Hjson Hnull Hfield. split; [| reflexivity].
  unfold sendMessage_settled, read_reply. cbn [bind].
  rewrite Hok. cbn [negb]. rewrite Hjson. cbn [bind].
  destruct data as [| b | x | str | items | props]; try reflexivity.
  - contradiction.
  - cbn [get_response]. now rewrite (Hfield props eq_refl).
Qed.

Lemma reply_without_response_field_witness :
  messages
    (sendMessage_settled
       (Normal {| status := 200;
                  json := Normal (JObject [(lit "answer", JString (lit "42"))]) |})
       {| uuid := lit "u2"; now := 2 |} (initial 0))
  = messages (initial 0)
    ++ [{| id := lit "u2"; role := agent; content := Undefined; timestamp := 2 |}]
  /\ ChatMessage {| id := lit "u2"; role := agent; content := Undefined; timestamp := 2 |}
     = AgentBubble false (Serialized Undefined).
Proof.
  apply (@reply_without_response_field
           {| status := 200;
              json := Normal (JObject [(lit "answer", JString (lit "42"))]) |}
           (JObject [(lit "answer", JString (lit "42"))])
           {| uuid := lit "u2"; now := 2 |} (initial 0)).
  - reflexivity.
  - reflexivity.
  - discriminate.
  - intros props [= <-]. reflexivity.
Defined.

(** X24.  The suggested queries are on screen only in states in which a
    click on one is accepted: the query is sent as it stands (none has
    white space to trim) and appended as a user message. *)
Theorem suggestions_accepted (query : jsstring) (fresh : Fresh) (st : PageState) :
  In query SuggestedQueries.SUGGESTIONS ->
  shows_suggestions st = true ->
  snd (sendMessage query fresh st)
  = Some (chat_request query {| aborted := false |})
  /\ messages (fst (sendMessage query fresh st))
     = messages st
       ++ [{| id := uuid fresh; role := user; content := Value (JString query);
              timestamp := now fresh |}].
Proof.
  intros Hin Hshown. unfold shows_suggestions in Hshown.
  apply andb_prop in Hshown as [_ Hidle]. apply negb_true_iff in Hidle.
  assert (Htrim : trim query = query /\ query <> []).
  { unfold SuggestedQueries.SUGGESTIONS in Hin. cbn [In] in Hin.
    repeat (destruct Hin as [<- | Hin]; [split; [vm_compute; reflexivity | discriminate] |]).
    contradiction. }
  destruct Htrim as [Htrim Hne].
  rewrite PageFacts.sendMessage_accepted; rewrite ?Htrim; trivial.
  split; reflexivity.
Qed.

Lemma suggestions_accepted_witness :
  snd (sendMessage (lit "Plot average price by ocean proximity")
         {| uuid := lit "u1"; now := 1 |} (initial 0))
  = Some (chat_request (lit "Plot average price by ocean proximity") {| aborted := false |})
  /\ messages (fst (sendMessage (lit "Plot average price by ocean proximity")
                      {| uuid := lit "u1"; now := 1 |} (initial 0)))
     = messages (initial 0)
       ++ [{| id := lit "u1"; role := user;
              content := Value (JString (lit "Plot average price by ocean proximity"));
              timestamp := 1 |}].
Proof.
  apply (@suggestions_accepted (lit "Plot average price by ocean proximity")
           {| uuid := lit "u1"; now := 1 |} (initial 0)).
  - right. right. left. reflexivity.
  - reflexivity.
Defined.

(** X25.  One exchange, from an idle session (the render on screen is
    not loading and no request is outstanding): a send that is accepted,
    followed by an answer the page can read, appends the user message and
    then the agent message, and leaves the page idle again with no request
    outstanding. *)
Theorem exchange_appends_two
    (loaded_at : Z) (s : Session) (text : jsstring) (asked answered : Fresh)
    (fetched : Completion Response) (raw : JSValue) :
  isLoading (rendered s) = false -> outstanding s = [] ->
  trim text <> [] ->
  read_reply fetched = Normal raw ->
  step loaded_at (Settled fetched answered) (step loaded_at (Send text asked) s)
  = {| page :=
         {| messages :=
              messages (page s)
              ++ [{| id := uuid asked; role := user;
                     content := Value (JString (trim text)); timestamp := now asked |};
                  {| id := uuid answered; role := agent;
                     content := raw; timestamp := now answered |}];
            input := [];
            isLoading := false;
            showWelcome := false;
            abortRef := Some {| aborted := false |} |};
       rendered := rendered s;
       outstanding := [] |}.
Proof.
  intros Hidle Hout Hne Hreply. cbn [step].
  rewrite PageFacts.sendMessage_accepted by assumption.
  unfold settle. rewrite Hout. cbn [app outstanding page rendered nth_error without firstn skipn].
  unfold sendMessage_settled. rewrite Hreply.
  unfold setIsLoading, append, as_captured. cbn. now rewrite <- app_assoc.
Qed.

Lemma exchange_appends_two_witness :
  step 0
    (Settled (Normal {| status := 200;
                        json := Normal (JObject [(lit "response", JString (lit "ok"))]) |})
             {| uuid := lit "u2"; now := 2 |})
    (step 0 (Send (lit " hi ") {| uuid := lit "u1"; now := 1 |}) (start 0))
  = {| page :=
         {| messages :=
              messages (page (start 0))
              ++ [{| id := lit "u1"; role := user;
                     content := Value (JString (trim (lit " hi "))); timestamp := 1 |};
                  {| id := lit "u2"; role := agent;
                     content := Value (JString (lit "ok")); timestamp := 2 |}];
            input := [];
            isLoading := false;
            showWelcome := false;
            abortRef := Some {| aborted := false |} |};
       rendered := rendered (start 0);
       outstanding := [] |}.
Proof.
  apply (@exchange_appends_two 0 (start 0) (lit " hi ")
           {| uuid := lit "u1"; now := 1 |} {| uuid := lit "u2"; now := 2 |}
           (Normal {| status := 200;
                      json := Normal (JObject [(lit "response", JString (lit "ok"))]) |})
           (Value (JString (lit "ok")))).
  - reflexivity.
  - reflexivity.
  - vm_compute. discriminate.
  - reflexivity.
Defined.

End SessionBehaviour.

(* ================================================================== *)
(** ** The life of a chart *)
(* ================================================================== *)

Module ChartLifecycle.
Import JS VegaChart.

(** Once the returned function has run, nothing is finalized any more. *)
Lemma after_teardown (es : list ChartEvent) (s : Effect) :
  torn_down s = true -> finalized (after es s) = finalized s.
Proof.
  revert s. induction es as [| e es IH]; intros s Htorn; [reflexivity |].
  cbn [after fold_left]. fold (after es (step e s)).
  destruct e as [result | err mounted |]; cbn [step].
  - destruct (settled s); rewrite IH; trivial.
  - destruct (settled s); rewrite IH; trivial.
  - rewrite Htorn. now apply IH.
Qed.

(** With nothing to finalize, nothing is finalized. *)
Lemma after_failure (es : list ChartEvent) (s : Effect) :
  settled s = true -> cleanup s = None ->
  finalized (after es s) = finalized s.
Proof.
  revert s. induction es as [| e es IH]; intros s Hsettled Hclean; [reflexivity |].
  cbn [after fold_left]. fold (after es (step e s)).
  destruct e as [result | err mounted |]; cbn [step].
  - rewrite Hsettled. now apply IH.
  - rewrite Hsettled. now apply IH.
  - destruct (torn_down s) eqn:Htorn; [now apply IH |].
    rewrite after_teardown by reflexivity.
    cbn [finalized]. rewrite Hclean. apply app_nil_r.
Qed.

(** A view that is there when the returned function runs is finalized
    then, and only then. *)
Lemma after_embedded (es : list ChartEvent) (s : Effect) (result : View) :
  settled s = true -> cleanup s = Some result -> torn_down s = false ->
  finalized (after es s)
  = finalized s ++ (if existsb is_teardown es then [result] else []).
Proof.
  revert s. induction es as [| e es IH]; intros s Hsettled Hclean Htorn.
  - cbn. now rewrite app_nil_r.
  - cbn [after fold_left existsb]. fold (after es (step e s)).
    destruct e as [other | err mounted |]; cbn [step is_teardown orb].
    + rewrite Hsettled. now apply IH.
    + rewrite Hsettled. now apply IH.
    + rewrite Htorn. rewrite after_teardown by reflexivity.
      cbn [finalized]. now rewrite Hclean.
Qed.

(** X26.  The view of a chart is finalized exactly when the embed has
    resolved before React runs the function the effect returned, and then
    once, at that moment.  When that function runs first, or when the embed
    fails, nothing is ever finalized, whatever follows. *)
Theorem chart_finalized (e : ChartEvent) (es : list ChartEvent) :
  finalized (run (e :: es))
  = match e with
    | Embedded result => if existsb is_teardown es then [result] else []
    | Failed _ _ => []
    | Teardown => []
    end.
Proof.
  unfold run. cbn [after fold_left]. fold (after es (step e started)).
  destruct e as [result | err mounted |]; cbn [step started settled torn_down].
  - now rewrite after_embedded with (result := result).
  - now rewrite after_failure.
  - now rewrite after_teardown.
Qed.

End ChartLifecycle.

(* ================================================================== *)
(** ** What holds of every session *)
(* ================================================================== *)

Module SessionInvariants.
Import JS ChatMessage Page PageView.

(** X27.  When React renders again before every event, and once more
    after the last, the typing indicator is on screen exactly while a
    request is outstanding; there is at most one, and during that time the
    send button is disabled. *)
Theorem typing_iff_outstanding (loaded_at : Z) (es : list Event) :
  (shows_typing (rendered (run loaded_at (rendered_between es ++ [Rendered]))) = true
   <-> outstanding (run loaded_at (rendered_between es ++ [Rendered])) <> [])
  /\ List.length (outstanding (run loaded_at (rendered_between es ++ [Rendered]))) <= 1
  /\ (outstanding (run loaded_at (rendered_between es ++ [Rendered])) <> [] ->
      send_disabled (rendered (run loaded_at (rendered_between es ++ [Rendered]))) = true).
Proof.
  pose proof (PageFacts.rendered_between_single_flight loaded_at es) as Hinv.
  unfold run in *. rewrite fold_left_app. cbn [fold_left step rendered outstanding].
  unfold single_flight in Hinv. unfold shows_typing, send_disabled.
  destruct (outstanding (fold_left (fun s e => step loaded_at e s)
                           (rendered_between es) (start loaded_at)))
    as [| call [| call' rest]].
  - rewrite Hinv. cbn. split; [split; [discriminate | easy] |]. split; [lia | easy].
  - rewrite Hinv. cbn. split; [split; [discriminate | reflexivity] |].
    split; [lia |]. intros _. apply orb_true_r.
  - contradiction.
Qed.

Lemma firstn_Forall {A : Type} (P : A -> Prop) (n : nat) (l : list A) :
  Forall P l -> Forall P (firstn n l).
Proof.
  intros H. revert n. induction H as [| x l Hx Hl IH]; intros [| n]; cbn;
    constructor; auto.
Qed.

Lemma skipn_Forall {A : Type} (P : A -> Prop) (n : nat) (l : list A) :
  Forall P l -> Forall P (skipn n l).
Proof.
  intros H. revert n. induction H as [| x l Hx Hl IH]; intros [| n]; cbn;
    auto.
Qed.

(** Settling a request leaves the other outstanding requests as they
    are. *)
Lemma settle_outstanding (P : FetchCall -> Prop) (n : nat)
    (fetched : Completion Response) (fresh : Fresh) (s : Session) :
  Forall P (outstanding s) -> Forall P (outstanding (settle n fetched fresh s)).
Proof.
  intros Hs. unfold settle. destruct (nth_error (outstanding s) n); [| exact Hs].
  cbn [outstanding]. unfold without. apply Forall_app.
  split; [now apply firstn_Forall | now apply skipn_Forall].
Qed.

(** X28.  The page never cancels: in every session, each outstanding
    request is the POST to the agent's address of a message that is not
    empty and is trimmed, with a signal that has not been aborted. *)
Theorem outstanding_requests (loaded_at : Z) (es : list Event) :
  Forall (fun call =>
            exists trimmed,
              call = chat_request trimmed {| aborted := false |}
              /\ trimmed <> [] /\ trim trimmed = trimmed)
         (outstanding (run loaded_at es)).
Proof.
  apply SessionBehaviour.run_invariant with (P := fun s =>
    Forall (fun call =>
              exists trimmed,
                call = chat_request trimmed {| aborted := false |}
                /\ trimmed <> [] /\ trim trimmed = trimmed)
           (outstanding s)).
  - constructor.
  - intros e s Hs.
    destruct e as [value | text fresh | fetched fresh | | n fetched fresh |];
      cbn [step].
    + exact Hs.
    + unfold sendMessage.
      destruct (str_eqb (trim text) []) eqn:Hempty; cbn [orb]; [exact Hs |].
      destruct (isLoading (as_captured s)); [exact Hs |].
      cbn [outstanding]. apply Forall_app. split; [exact Hs |].
      constructor; [| constructor]. exists (trim text).
      split; [reflexivity |]. split; [| apply SessionBehaviour.trim_idem].
      intros H. rewrite H in Hempty. discriminate.
    + now apply settle_outstanding.
    + exact Hs.
    + now apply settle_outstanding.
    + exact Hs.
Qed.

(** X29.  While the page is in the loading state, a request is
    outstanding: the loading state is set only together with a request and
    cleared whenever one settles. *)
Theorem loading_has_outstanding (loaded_at : Z) (es : list Event) :
  isLoading (page (run loaded_at es)) = true ->
  outstanding (run loaded_at es) <> [].
Proof.
  apply SessionBehaviour.run_invariant with (P := fun s =>
    isLoading (page s) = true -> outstanding s <> []).
  - discriminate.
  - intros e s Hs.
    assert (Hsettle : forall n fetched fresh,
               isLoading (page (settle n fetched fresh s)) = true ->
               outstanding (settle n fetched fresh s) <> []).
    { intros n fetched fresh. unfold settle.
      destruct (nth_error (outstanding s) n); [discriminate | exact Hs]. }
    destruct e as [value | text fresh | fetched fresh | | n fetched fresh |];
      cbn [step]; trivial; try apply Hsettle.
    unfold sendMessage.
    destruct (str_eqb (trim text) [] || isLoading (as_captured s)); [exact Hs |].
    cbn [outstanding]. intros _ H. now apply app_eq_nil in H as [_ H].
Qed.

Lemma loading_has_outstanding_witness :
  outstanding (run 0 [Send (lit "hi") {| uuid := lit "u1"; now := 1 |}; Cleared]) <> [].
Proof.
  apply (@loading_has_outstanding 0
           [Send (lit "hi") {| uuid := lit "u1"; now := 1 |}; Cleared]).
  reflexivity.
Defined.

End SessionInvariants.
